(** * BlendLuxCore: the self-update operator ([operators/update.py])

    A shallow embedding of [release_items_callback] and of the two methods
    of [LUXCORE_OT_change_version] ([invoke] and [execute]), together with
    the properties of the release catalog, the asset matcher, the version
    selector and the installer.

    Python strings are [string]; the [OrderedDict] [releases] is an
    association list in insertion order; the file system is a finite map
    from the paths the operator touches to the objects stored there; the
    operator's effects (reports, prints, library calls, exceptions) are
    threaded through a small state-and-exception monad. *)

From stdpp Require Import base gmap strings list pretty.
From Stdlib Require Import Ascii.

Local Open Scope list_scope.
Local Open Scope stdpp_scope.

(** ** Python string operations *)

Module PyStr.

(** [old] is a prefix of [s] ([s.startswith(old)]). *)
Fixpoint startswith (old s : string) : bool :=
  match old, s with
  | EmptyString, _ => true
  | String a old', String b s' => if decide (a = b) then startswith old' s' else false
  | String _ _, EmptyString => false
  end.

(** [s.replace(old, new)] for a non-empty [old]: the occurrences of [old]
    are found from the left and do not overlap.  [skip] counts the
    characters of the occurrence just replaced that are still to be
    dropped. *)
Fixpoint replace_from (old new : string) (skip : nat) (s : string) : string :=
  match s with
  | EmptyString => EmptyString
  | String c s' =>
      match skip with
      | S k => replace_from old new k s'
      | O =>
          if startswith old s
          then new +:+ replace_from old new (String.length old - 1) s'
          else String c (replace_from old new 0 s')
      end
  end.

Definition replace (s old new : string) : string := replace_from old new 0 s.

(** [s.split(sep)] for a separator of one character: every occurrence of
    the separator ends a segment, so the result has one segment more than
    there are separators (and [[""]] for the empty string). *)
Fixpoint split (s : string) (sep : ascii) : list string :=
  match s with
  | EmptyString => [EmptyString]
  | String c s' =>
      if decide (c = sep) then EmptyString :: split s' sep
      else match split s' sep with
           | seg :: segs => String c seg :: segs
           | [] => [String c EmptyString]
           end
  end.

(** Truth value of a string in a condition: non-empty. *)
Definition truthy (s : string) : bool :=
  match s with EmptyString => false | String _ _ => true end.

(** [old in s]. *)
Fixpoint contains (old s : string) : bool :=
  startswith old s ||
  match s with
  | EmptyString => false
  | String _ s' => contains old s'
  end.

End PyStr.

(** ** Data model *)

(** [class Release]: the class attributes are the defaults of a fresh
    instance. *)
Record Release := mkRelease {
  version_string : string;
  is_prerelease : bool;
  download_url : string
}.

Definition Release_new : Release :=
  {| version_string := ""; is_prerelease := false; download_url := "" |}.

Definition set_version_string (v : string) (e : Release) : Release :=
  {| version_string := v; is_prerelease := is_prerelease e; download_url := download_url e |}.
Definition set_is_prerelease (b : bool) (e : Release) : Release :=
  {| version_string := version_string e; is_prerelease := b; download_url := download_url e |}.
Definition set_download_url (u : string) (e : Release) : Release :=
  {| version_string := version_string e; is_prerelease := is_prerelease e; download_url := u |}.

(** One object of the ["assets"] array of the feed. *)
Record Asset := mkAsset {
  asset_name : string;
  browser_download_url : string
}.

(** One object of the JSON array the release feed answers with. *)
Record ReleaseInfo := mkReleaseInfo {
  name : string;
  prerelease : bool;
  assets : list Asset
}.

(** ** [OrderedDict] *)

Module OrderedDict.

Abbreviation t V := (list (string * V)).

Definition empty {V} : t V := [].

Fixpoint get {V} (d : t V) (k : string) : option V :=
  match d with
  | [] => None
  | (k', v) :: d' => if decide (k' = k) then Some v else get d' k
  end.

(** [d[k] = v]: an existing key keeps its position and takes the new
    value, a new key goes to the end. *)
Fixpoint set {V} (d : t V) (k : string) (v : V) : t V :=
  match d with
  | [] => [(k, v)]
  | (k', v') :: d' =>
      if decide (k' = k) then (k, v) :: d' else (k', v') :: set d' k v
  end.

Definition keys {V} (d : t V) : list string := map fst d.
Definition values {V} (d : t V) : list V := map snd d.

End OrderedDict.

(** ** The asset matcher (the loops of [invoke]) *)

(** Lines 113-123: the three-way case on [len(parts)].  [None] is the
    [continue] of the [else] branch. *)
Definition asset_parts (asset : Asset) : list string :=
  let middle := PyStr.replace (PyStr.replace (asset_name asset) "BlendLuxCore-" "") ".zip" "" in
  PyStr.split middle "-".

Definition classify_parts (parts : list string) : option (string * string * bool) :=
  match parts with
  | [version; system] => Some (version, system, false)
  | [version; system; _] => Some (version, system, true)
  | _ => None
  end.

(** Line 125. *)
Definition is_right_asset (current_system : string) (current_is_opencl : bool)
    (system : string) (is_opencl : bool) : bool :=
  bool_decide (system = current_system) && bool_decide (is_opencl = current_is_opencl).

(** Lines 109-128: the loop over the assets of one release; the [break]
    ends the recursion. *)
Fixpoint scan_assets (current_system : string) (current_is_opencl : bool)
    (assets : list Asset) (entry : Release) : Release :=
  match assets with
  | [] => entry
  | asset :: rest =>
      match classify_parts (asset_parts asset) with
      | None => scan_assets current_system current_is_opencl rest entry
      | Some (_, system, is_opencl) =>
          if is_right_asset current_system current_is_opencl system is_opencl
          then set_download_url (browser_download_url asset) entry
          else scan_assets current_system current_is_opencl rest entry
      end
  end.

(** Lines 104-128: the entry built for one release of the feed. *)
Definition make_entry (current_system : string) (current_is_opencl : bool)
    (release_info : ReleaseInfo) : Release :=
  let entry := Release_new in
  let entry := set_version_string (PyStr.replace (name release_info) "BlendLuxCore " "") entry in
  let entry := set_is_prerelease (prerelease release_info) entry in
  scan_assets current_system current_is_opencl (assets release_info) entry.

(** Lines 103-132: the loop over the feed, updating [releases]. *)
Fixpoint fill_releases (current_system : string) (current_is_opencl : bool)
    (response : list ReleaseInfo) (releases : OrderedDict.t Release) : OrderedDict.t Release :=
  match response with
  | [] => releases
  | release_info :: rest =>
      let entry := make_entry current_system current_is_opencl release_info in
      fill_releases current_system current_is_opencl rest
        (if PyStr.truthy (download_url entry)
         then OrderedDict.set releases (version_string entry) entry
         else releases)
  end.

(** ** The file system *)

(** An object on disk: a regular file with its bytes, or a directory with
    its named children. *)
#[local] Set Warnings "-register-all".
Inductive node :=
| File (data : string)
| Dir (entries : list (string * node)).
#[local] Set Warnings "register-all".

Module Entries.

Fixpoint get (es : list (string * node)) (n : string) : option node :=
  match es with
  | [] => None
  | (n', x) :: es' => if decide (n' = n) then Some x else get es' n
  end.

Fixpoint set (es : list (string * node)) (n : string) (x : node) : list (string * node) :=
  match es with
  | [] => [(n, x)]
  | (n', x') :: es' => if decide (n' = n) then (n, x) :: es' else (n', x') :: set es' n x
  end.

End Entries.

(** The store maps the absolute path of every object the operator can
    address directly (the entries of the add-on directory, the temporary
    directory) to the tree stored there.  The paths of the store are not
    nested in one another. *)
Abbreviation store := (gmap string node).

(** [os.path]: the functions differ between the two supported systems, so
    they form an interface. *)
Class OsPath := {
  path_join : string → string → string;
  path_dirname : string → string;
  path_basename : string → string
}.

(** ** Zip archives *)

(** What a member of an archive places at its path. *)
Inductive leaf :=
| LDir
| LFile (data : string).

(** A member: the first component of its name, the remaining components,
    what it holds, and how its CRC check ends.  The check comes with the
    last read of the bytes, and the bytes of a read that fails are not
    written: [Some written] is a check that fails when [written] has
    reached the file, [None] a check that passes. *)
Record member := mkMember {
  m_top : string;
  m_rest : list string;
  m_leaf : leaf;
  m_crc_error : option string
}.

(** What of a member reaches the disk, and whether its extraction ends
    with [BadZipFile]. *)
Definition m_written (m : member) : leaf :=
  match m_leaf m, m_crc_error m with
  | LFile _, Some written => LFile written
  | l, _ => l
  end.

Definition m_fails (m : member) : bool :=
  match m_leaf m, m_crc_error m with
  | LFile _, Some _ => true
  | _, _ => false
  end.

(** [ZipFile._extract_member] below one object of the store: missing
    directories on the way are created, a directory member is created
    unless one is there, a file member is opened for writing.  [None]
    stands for the [OSError] raised when a file is in the way of a
    directory or a directory in the way of a file. *)
Fixpoint write_at (path : list string) (l : leaf) (o : option node) : option node :=
  match path with
  | [] =>
      match o, l with
      | None, LDir => Some (Dir [])
      | Some (Dir es), LDir => Some (Dir es)
      | Some (File _), LDir => None
      | Some (Dir _), LFile _ => None
      | _, LFile d => Some (File d)
      end
  | n :: rest =>
      match o with
      | Some (File _) => None
      | None =>
          match write_at rest l None with
          | Some sub => Some (Dir [(n, sub)])
          | None => None
          end
      | Some (Dir es) =>
          match write_at rest l (Entries.get es n) with
          | Some sub => Some (Dir (Entries.set es n sub))
          | None => None
          end
      end
  end.

(** ** Effects *)

Inductive exc :=
| KeyError (key : string)
| ValueError
| ConnectionError
| URLError (reason : string)
| BadZipFile
| FileNotFoundError (path : string)
| NotADirectoryError (path : string)
| OSError (path : string)
| ShutilError (path : string)
| OtherException (what : string).

Definition is_ConnectionError (e : exc) : bool :=
  match e with ConnectionError => true | _ => false end.
Definition is_URLError (e : exc) : bool :=
  match e with URLError _ => true | _ => false end.
(** [except Exception]. *)
Definition is_Exception (e : exc) : bool := true.

(** [str(err)] as ["%s" % err] prints it. *)
Definition exc_str (e : exc) : string :=
  match e with
  | KeyError k => k
  | ValueError => "ValueError"
  | ConnectionError => "ConnectionError"
  | URLError reason => reason
  | BadZipFile => "File is not a zip file"
  | FileNotFoundError p | NotADirectoryError p | OSError p | ShutilError p => p
  | OtherException what => what
  end.

(** What the operator does to the outside, in order. *)
Inductive event :=
| EvReport (level msg : string)
| EvPrint (line : string)
| EvGet (url : string)
| EvUrlopen (url : string)
| EvMkdtemp (path : string)
| EvCleanup (path : string)
| EvOpenWrite (dir file : string)
| EvMove (src dst : string)
| EvRmtree (path : string)
| EvExtractall (dir : string).

Record world := mkWorld {
  w_fs : store;
  w_releases : OrderedDict.t Release;
  w_log : list event
}.

Definition with_fs (f : store → store) (w : world) : world :=
  {| w_fs := f (w_fs w); w_releases := w_releases w; w_log := w_log w |}.
Definition with_releases (f : OrderedDict.t Release → OrderedDict.t Release) (w : world) : world :=
  {| w_fs := w_fs w; w_releases := f (w_releases w); w_log := w_log w |}.
Definition emit (ev : event) (w : world) : world :=
  {| w_fs := w_fs w; w_releases := w_releases w; w_log := w_log w ++ [ev] |}.

(** The result of running a piece of the operator: a value, an exception
    on its way up, or a loop that does not end. *)
Inductive res (A : Type) :=
| Val (a : A)
| Raise (e : exc)
| Diverge.
Arguments Val {A} a.
Arguments Raise {A} e.
Arguments Diverge {A}.

Definition M (A : Type) : Type := world → res A * world.

Definition ret {A} (a : A) : M A := λ w, (Val a, w).
Definition raise {A} (e : exc) : M A := λ w, (Raise e, w).
Definition bind {A B} (c : M A) (k : A → M B) : M B := λ w,
  match c w with
  | (Val a, w') => k a w'
  | (Raise e, w') => (Raise e, w')
  | (Diverge, w') => (Diverge, w')
  end.

(** [try: c  except E as err: ...]: the exceptions selected by [sel] are
    handed to the continuation, the others pass. *)
Definition attempt {A} (sel : exc → bool) (c : M A) : M (A + exc) := λ w,
  match c w with
  | (Val a, w') => (Val (inl a), w')
  | (Raise e, w') => if sel e then (Val (inr e), w') else (Raise e, w')
  | (Diverge, w') => (Diverge, w')
  end.

Declare Scope op_scope.
Delimit Scope op_scope with op.
Notation "'let!' x ':=' c 'in' k" := (bind c (λ x, k))
  (at level 10, x binder, c at level 100, k at level 200) : op_scope.
Notation "c ';;' k" := (bind c (λ _, k))
  (at level 100, k at level 200, right associativity) : op_scope.
Local Open Scope op_scope.

Definition get_fs : M store := λ w, (Val (w_fs w), w).
Definition modify_fs (f : store → store) : M unit := λ w, (Val tt, with_fs f w).
Definition get_releases : M (OrderedDict.t Release) := λ w, (Val (w_releases w), w).
Definition modify_releases (f : OrderedDict.t Release → OrderedDict.t Release) : M unit :=
  λ w, (Val tt, with_releases f w).
Definition call (ev : event) : M unit := λ w, (Val tt, emit ev w).

(** [self.report({level}, msg)] and [print(line)]. *)
Definition report (level msg : string) : M unit := call (EvReport level msg).
Definition print (line : string) : M unit := call (EvPrint line).

Inductive outcome := CANCELLED | FINISHED | RUNNING_MODAL.

(** [bl_info] of the package: the version tuple and the alpha/beta suffix
    kept under ["warning"]. *)
Record BlInfo := mkBlInfo {
  bl_version : Z * Z * Z;
  bl_warning : string
}.

(** What [requests.get] meets: no connection, or a response with its [ok]
    flag and its body as [json.loads] reads it.  [None]: the body is no
    JSON and [json.loads] raises.  [Some response]: a well-formed feed, a
    list of releases that each have the keys the loop of [invoke] reads
    (["name"], ["prerelease"], ["assets"], and ["name"] and
    ["browser_download_url"] in every asset). *)
Inductive http_answer :=
| NoConnection
| Response (ok : bool) (body : option (list ReleaseInfo)).

Definition GITHUB_API_RELEASE_URL : string :=
  "https://api.github.com/repos/LuxCoreRender/BlendLuxCore/releases".

Definition system_mapping : OrderedDict.t string :=
  [("Linux", "linux64"); ("Windows", "win64")].

(** Lines 31-38. *)
Definition get_current_version (bl_info : BlInfo) : string :=
  let version := bl_version bl_info in
  let version_string := "v" +:+ pretty (version.1.1) +:+ "." +:+ pretty (version.1.2) in
  version_string +:+ bl_warning bl_info.

(** An item of the drop-down list:
    [(identifier, name, description, icon, number)]. *)
Definition item : Type := string * string * string * string * nat.

(** Lines 45-59: the loop of [release_items_callback] over
    [enumerate(releases.values())], appending to [items]. *)
Fixpoint items_loop (current_version : string) (i : nat) (values : list Release)
    (items : list item) : list item :=
  match values with
  | [] => items
  | release :: rest =>
      let description := "" in
      let version_string := version_string release in
      let '(icon, description) :=
        if decide (version_string = current_version)
        then ("FILE_TICK", description +:+ " (installed)")
        else if is_prerelease release
        then ("ERROR", description +:+ " (unstable)")
        else ("NONE", description) in
      items_loop current_version (S i) rest
        (items ++ [(version_string, version_string, description, icon, i)])
  end.

(** Lines 41-61. *)
Definition release_items_callback (bl_info : BlInfo) (releases : OrderedDict.t Release)
    : list item :=
  let items := [] in
  let current_version := get_current_version bl_info in
  items_loop current_version 0 (OrderedDict.values releases) items.

(** Lines 174-177: the [while] loop on [backup_path].  [None]: the fuel is
    used up before a free name is met. *)
Fixpoint backup_loop (fs : store) (fuel : nat) (backup_path : string) : option string :=
  match fuel with
  | O => None
  | S fuel' =>
      if bool_decide (is_Some (fs !! backup_path))
      then backup_loop fs fuel' (backup_path +:+ "b")
      else Some backup_path
  end.

Section Operator.

Context `{OsPath}.

(** The surroundings of the operator. *)
Variable bl_info : BlInfo.
(** [requests.get(url)]. *)
Variable requests_get : string → http_answer.
(** [platform.system()]. *)
Variable platform_system : string.
(** [pyluxcore.GetPlatformDesc().Get("compile.LUXRAYS_DISABLE_OPENCL").GetBool()]. *)
Variable LUXRAYS_DISABLE_OPENCL : bool.
(** [urllib.request.urlopen(url, timeout=60)]: the exception it raises,
    or the handle, whose [read()] raises or gives the body. *)
Variable urlopen : string → exc + (exc + string).
(** The decoder of [zipfile.ZipFile]: the members of an archive, [None]
    for bytes that are no archive. *)
Variable read_zip : string → option (list member).
(** [os.path.realpath(__file__)]. *)
Variable file_realpath : string.
(** The name [tempfile.TemporaryDirectory()] picks. *)
Variable mkdtemp : store → string.

(** *** Library calls *)

Definition http_get (url : string) : M (bool * option (list ReleaseInfo)) :=
  call (EvGet url) ;;
  match requests_get url with
  | NoConnection => raise ConnectionError
  | Response ok body => ret (ok, body)
  end.

Definition json_loads (body : option (list ReleaseInfo)) : M (list ReleaseInfo) :=
  match body with
  | Some response => ret response
  | None => raise ValueError
  end.

Definition os_path_exists (path : string) : M bool :=
  let! fs := get_fs in
  ret (bool_decide (is_Some (fs !! path))).

(** [open(path, "wb").write(data)] for the file [file] of the directory
    [dir] of the store. *)
Definition write_file (dir file data : string) : M unit :=
  let! fs := get_fs in
  match fs !! dir with
  | Some (Dir es) =>
      match Entries.get es file with
      | Some (Dir _) => raise (OSError (path_join dir file))
      | _ => modify_fs (<[dir := Dir (Entries.set es file (File data))]>)
      end
  | Some (File _) => raise (NotADirectoryError (path_join dir file))
  | None => raise (FileNotFoundError (path_join dir file))
  end.

(** Lines 159-161: [urlopen] comes first, then the file is opened (and
    so created), then the body is read and written. *)
Definition download (url dir file : string) : M unit :=
  call (EvUrlopen url) ;;
  match urlopen url with
  | inl e => raise e
  | inr url_handle =>
      call (EvOpenWrite dir file) ;;
      write_file dir file "" ;;
      match url_handle with
      | inl e => raise e
      | inr body => write_file dir file body
      end
  end.

(** [shutil.move(src, dst)]: a rename when nothing is at [dst]; below
    [dst] when [dst] is a directory; over [dst] when both are files. *)
Definition shutil_move (src dst : string) : M unit :=
  call (EvMove src dst) ;;
  let! fs := get_fs in
  match fs !! src with
  | None => raise (FileNotFoundError src)
  | Some x =>
      if decide (src = dst) then ret tt
      else
        match fs !! dst with
        | None => modify_fs (λ fs, <[dst := x]> (delete src fs))
        | Some (Dir es) =>
            let real_dst := path_basename src in
            match Entries.get es real_dst with
            | Some _ => raise (ShutilError (path_join dst real_dst))
            | None =>
                modify_fs (λ fs, <[dst := Dir (Entries.set es real_dst x)]> (delete src fs))
            end
        | Some (File _) =>
            match x with
            | File _ => modify_fs (λ fs, <[dst := x]> (delete src fs))
            | Dir _ => raise (NotADirectoryError dst)
            end
        end
  end.

(** [shutil.rmtree(path)]. *)
Definition shutil_rmtree (path : string) : M unit :=
  call (EvRmtree path) ;;
  let! fs := get_fs in
  match fs !! path with
  | Some (Dir _) => modify_fs (delete path)
  | Some (File _) => raise (NotADirectoryError path)
  | None => raise (FileNotFoundError path)
  end.

(** [zipfile.ZipFile(path)] for the file [file] of the directory [dir]. *)
Definition ZipFile (dir file : string) : M (list member) :=
  let! fs := get_fs in
  match fs !! dir with
  | Some (Dir es) =>
      match Entries.get es file with
      | Some (File data) =>
          match read_zip data with
          | Some zf => ret zf
          | None => raise BadZipFile
          end
      | Some (Dir _) => raise (OSError (path_join dir file))
      | None => raise (FileNotFoundError (path_join dir file))
      end
  | _ => raise (FileNotFoundError (path_join dir file))
  end.

Definition extract_member (dir : string) (m : member) : M unit :=
  let! fs := get_fs in
  let target := path_join dir (m_top m) in
  match write_at (m_rest m) (m_written m) (fs !! target) with
  | None => raise (OSError target)
  | Some x =>
      modify_fs (<[target := x]>) ;;
      if m_fails m then raise BadZipFile else ret tt
  end.

(** [zf.extractall(dir)]: the members in the order of the archive, up
    to the first that fails. *)
Fixpoint extract_members (dir : string) (zf : list member) : M unit :=
  match zf with
  | [] => ret tt
  | m :: zf' => extract_member dir m ;; extract_members dir zf'
  end.

Definition extractall (zf : list member) (dir : string) : M unit :=
  call (EvExtractall dir) ;;
  extract_members dir zf.

(** [with tempfile.TemporaryDirectory() as temp_dir_path: body]: the
    directory is made, and removed again however the body ends. *)
Definition with_TemporaryDirectory {A} (body : string → M A) : M A := λ w,
  let temp_dir_path := mkdtemp (w_fs w) in
  let w1 := with_fs (<[temp_dir_path := Dir []]>) (emit (EvMkdtemp temp_dir_path) w) in
  match body temp_dir_path w1 with
  | (Diverge, w2) => (Diverge, w2)
  | (r, w2) => (r, with_fs (delete temp_dir_path) (emit (EvCleanup temp_dir_path) w2))
  end.

(** Lines 173-177.  The store is finite, so one round more than it has
    paths is fuel enough (lemma [backup_loop_total]). *)
Definition choose_backup_path (blendluxcore_dir : string) : M string := λ w,
  let backup_path := blendluxcore_dir +:+ "_backup" in
  match backup_loop (w_fs w) (S (size (w_fs w))) backup_path with
  | Some backup_path => (Val backup_path, w)
  | None => (Diverge, w)
  end.

(** *** [LUXCORE_OT_change_version.invoke] (lines 72-135) *)

Definition invoke : M outcome :=
  modify_releases (λ _, OrderedDict.empty) ;;
  let! got := attempt is_ConnectionError (http_get GITHUB_API_RELEASE_URL) in
  match got with
  | inr error =>
      report "ERROR" "Connection error" ;;
      ret CANCELLED
  | inl (ok, body) =>
      if negb ok then
        report "ERROR" "Response not ok" ;;
        ret CANCELLED
      else
        let! response := json_loads body in
        let current_is_opencl := negb LUXRAYS_DISABLE_OPENCL in
        match OrderedDict.get system_mapping platform_system with
        | None =>
            report "ERROR" ("Unsupported system: " +:+ platform_system) ;;
            ret CANCELLED
        | Some current_system =>
            modify_releases (fill_releases current_system current_is_opencl response) ;;
            (* wm.invoke_props_dialog(self) *)
            ret RUNNING_MODAL
        end
  end.

(** *** [LUXCORE_OT_change_version.execute] (lines 137-202) *)

(** Lines 182-184: the [with zipfile.ZipFile(...)] block. *)
Definition unzip (temp_dir_path temp_zip addon_dir : string) : M unit :=
  let! zf := ZipFile temp_dir_path temp_zip in
  print ("Extracting zip to " +:+ addon_dir) ;;
  extractall zf addon_dir.

(** Lines 182-188: the body of the [try]. *)
Definition extract_archive (temp_dir_path temp_zip addon_dir backup_path : string) : M unit :=
  unzip temp_dir_path temp_zip addon_dir ;;
  print "Cleaning up" ;;
  shutil_rmtree backup_path.

(** Lines 190-194: the body of the [except Exception]. *)
Definition restore_backup (blendluxcore_dir backup_path : string) : M unit :=
  let! partial := os_path_exists blendluxcore_dir in
  (if partial then shutil_rmtree blendluxcore_dir else ret tt) ;;
  shutil_move backup_path blendluxcore_dir.

(** Lines 179-194: the backup move and the [try] statement. *)
Definition swap_installation
    (temp_dir_path temp_zip blendluxcore_dir addon_dir backup_path : string) : M unit :=
  shutil_move blendluxcore_dir backup_path ;;
  let! tried := attempt is_Exception
    (extract_archive temp_dir_path temp_zip addon_dir backup_path) in
  match tried with
  | inl _ => ret tt
  | inr _ => restore_backup blendluxcore_dir backup_path
  end.

(** Lines 167-194: what follows the download inside the [with] block. *)
Definition replace_installation (temp_dir_path temp_zip : string) : M unit :=
  let current_dir := path_dirname file_realpath in
  let blendluxcore_dir := path_dirname current_dir in
  let addon_dir := path_dirname blendluxcore_dir in
  let! backup_path := choose_backup_path blendluxcore_dir in
  print ("Backing up files at: " +:+ backup_path) ;;
  swap_installation temp_dir_path temp_zip blendluxcore_dir addon_dir backup_path.

(** Lines 153-194: the body of the [with] block.  [Some r] is a
    [return r] out of the block, [None] is its end. *)
Definition download_and_replace (requested_release : Release) (temp_dir_path : string)
    : M (option outcome) :=
  let temp_zip := "default.zip" in
  let url := download_url requested_release in
  let! got := attempt is_URLError (
    print ("Downloading: " +:+ url) ;;
    download url temp_dir_path temp_zip) in
  match got with
  | inr err =>
      report "ERROR" ("Could not download: " +:+ exc_str err) ;;
      ret (Some CANCELLED)
  | inl _ =>
      print "Download finished" ;;
      replace_installation temp_dir_path temp_zip ;;
      ret None
  end.

Definition execute (selected_release : string) : M outcome :=
  let! releases := get_releases in
  match OrderedDict.get releases selected_release with
  | None => raise (KeyError selected_release)
  | Some requested_release =>
      let current_version := get_current_version bl_info in
      if decide (version_string requested_release = current_version) then
        report "ERROR" "This is the currently installed version" ;;
        ret CANCELLED
      else
        print "=======================================" ;;
        print ("Changing version to " +:+ selected_release) ;;
        print ("Current version: " +:+ current_version) ;;
        print "" ;;
        let! returned := with_TemporaryDirectory (download_and_replace requested_release) in
        match returned with
        | Some r => ret r
        | None =>
            print "" ;;
            print ("Done. Changed to version " +:+ selected_release) ;;
            print "Restart Blender for the changes to take effect." ;;
            print "=======================================" ;;
            report "ERROR" "Restart Blender!" ;;
            ret FINISHED
        end
  end.

End Operator.

(** ** [posixpath]: the instance of [os.path] on Linux *)

Module posixpath.

(** [rsplit (reverse of p) ""] is [(p[:i], p[i:])] for
    [i = p.rfind("/") + 1]. *)
Fixpoint rsplit (r tail : string) : string * string :=
  match r with
  | EmptyString => (EmptyString, tail)
  | String c r' =>
      if decide (c = "/"%char) then (String.rev r, tail) else rsplit r' (String c tail)
  end.

Fixpoint lstrip_sep (r : string) : string :=
  match r with
  | String c r' => if decide (c = "/"%char) then lstrip_sep r' else r
  | EmptyString => EmptyString
  end.

(** [p.rstrip("/")]. *)
Definition rstrip_sep (p : string) : string := String.rev (lstrip_sep (String.rev p)).

Definition dirname (p : string) : string :=
  let head := (rsplit (String.rev p) "").1 in
  match rstrip_sep head with
  | EmptyString => head
  | stripped => stripped
  end.

Definition basename (p : string) : string := (rsplit (String.rev p) "").2.

Definition join (a b : string) : string :=
  if PyStr.startswith "/" b then b
  else if bool_decide (a = "") || PyStr.startswith "/" (String.rev a) then a +:+ b
  else a +:+ "/" +:+ b.

(** [shutil._basename] strips trailing separators first. *)
#[export] Instance os_path : OsPath := {|
  path_join := join;
  path_dirname := dirname;
  path_basename p := basename (rstrip_sep p)
|}.

End posixpath.

(** ** Notions the statements use *)

(** The system segment of an asset name and its accelerated-build flag,
    read off the segments of the name. *)
Definition system_segment (asset : Asset) : option string :=
  match asset_parts asset with
  | [_; system] => Some system
  | [_; system; _] => Some system
  | _ => None
  end.

Definition accelerated_build (asset : Asset) : option bool :=
  match length (asset_parts asset) with
  | 2 => Some false
  | 3 => Some true
  | _ => None
  end.

(** The asset is the build for the system [current_system] with the
    accelerated-build flag [current_is_opencl]. *)
Definition asset_matches (current_system : string) (current_is_opencl : bool)
    (asset : Asset) : Prop :=
  system_segment asset = Some current_system ∧
  accelerated_build asset = Some current_is_opencl.

#[export] Instance asset_matches_dec cs co asset : Decision (asset_matches cs co asset).
Proof. unfold asset_matches. apply _. Defined.

(** The annotation of a version in the selector, by the rules in their
    order of priority. *)
Inductive annotation :=
| Installed
| Unstable
| Unmarked.

Definition annotation_of (current_version : string) (release : Release) : annotation :=
  if decide (version_string release = current_version) then Installed
  else if is_prerelease release then Unstable
  else Unmarked.

Definition annotation_text (a : annotation) : string :=
  match a with
  | Installed => " (installed)"
  | Unstable => " (unstable)"
  | Unmarked => ""
  end.

Definition annotation_icon (a : annotation) : string :=
  match a with
  | Installed => "FILE_TICK"
  | Unstable => "ERROR"
  | Unmarked => "NONE"
  end.

(** The item the selector is to show for the record at position [i]. *)
Definition selectable (current_version : string) (i : nat) (release : Release) : item :=
  let a := annotation_of current_version release in
  (version_string release, version_string release, annotation_text a, annotation_icon a, i).

(** [n] times the letter the loop on the backup path appends. *)
Fixpoint bs (n : nat) : string :=
  match n with
  | O => ""
  | S n' => "b" +:+ bs n'
  end.

(** The paths of the store that are at least as long as [p]: each round
    of the loop leaves fewer of them. *)
Definition as_long_as (fs : store) (p : string) : gset string :=
  filter (λ k, String.length p ≤ String.length k) (dom fs).

(** The reports among the events of a log. *)
Definition reports (log : list event) : list (string * string) :=
  omap (λ ev, match ev with EvReport level msg => Some (level, msg) | _ => None end) log.

(** The calls that change the add-on directory: moving, deleting,
    extracting. *)
Definition changes_installation (ev : event) : bool :=
  match ev with
  | EvMove _ _ | EvRmtree _ | EvExtractall _ => true
  | _ => false
  end.

(** A piece of the operator ends, with a value or an exception, in every
    world. *)
Definition ends {A} (c : M A) : Prop := ∀ w, (c w).1 ≠ Diverge.

(** A member of an archive keeps clear of the backup: it is not
    extracted to the backup path or below it, and it does not put a
    regular file at the path of the installation root. *)
Definition keeps_clear `{OsPath} (addon_dir blendluxcore_dir backup_path : string)
    (m : member) : Prop :=
  path_join addon_dir (m_top m) ≠ backup_path
  ∧ (path_join addon_dir (m_top m) = blendluxcore_dir → m_rest m = [] → m_leaf m = LDir).

(** What is at a path is no regular file: nothing, or a directory. *)
Definition no_file (o : option node) : Prop :=
  match o with
  | Some (File _) => False
  | _ => True
  end.

(** The catalog is keyed by the version strings of its records. *)
Definition keyed_by_version (d : OrderedDict.t Release) : Prop :=
  Forall (λ kv, kv.1 = version_string kv.2) d.

(** The parts of an item of the drop-down list. *)
Definition item_identifier (it : item) : string := it.1.1.1.1.
Definition item_description (it : item) : string := it.1.1.2.
Definition item_number (it : item) : nat := it.2.

Definition is_report (ev : event) : bool :=
  match ev with
  | EvReport _ _ => true
  | _ => false
  end.

(** What [extractall] makes of a store: how it ends and the store it
    leaves. *)
Definition extraction `{OsPath} (dir : string) (zf : list member) (fs : store)
    : res unit * store :=
  let run := extract_members dir zf {| w_fs := fs; w_releases := []; w_log := [] |} in
  (run.1, w_fs run.2).

(** A piece of the operator that leaves the catalog alone and adds to
    the log events of one kind only. *)
Definition only (P : event → Prop) {A} (c : M A) : Prop :=
  ∀ w, w_releases (c w).2 = w_releases w
       ∧ ∃ events, w_log (c w).2 = w_log w ++ events ∧ Forall P events.

(** It reports nothing. *)
Definition quiet {A} (c : M A) : Prop := only (λ ev, is_report ev = false) c.

(** A piece of the operator that leaves what is at the path [p] of the
    store as it is. *)
Definition spares (p : string) {A} (c : M A) : Prop :=
  ∀ w, w_fs (c w).2 !! p = w_fs w !! p.

(** The path [q] and the directories above it, [dirname q],
    [dirname (dirname q)] and so on: a path has no more directories
    above it than it has characters. *)
Fixpoint path_chain `{OsPath} (fuel : nat) (q : string) : list string :=
  q :: match fuel with
       | O => []
       | S fuel' => path_chain fuel' (path_dirname q)
       end.

(** The path [p] is [q] or a directory above [q]. *)
Definition reaches `{OsPath} (p q : string) : Prop :=
  p ∈ path_chain (String.length q) q.

(** How often a character occurs in a string. *)
Fixpoint count_char (c : ascii) (s : string) : nat :=
  match s with
  | EmptyString => 0
  | String a s' => (if decide (a = c) then 1 else 0) + count_char c s'
  end.

(** A name of one entry of a directory: not empty, not ["."] or [".."],
    and without a separator of either system. *)
Definition plain_name (n : string) : Prop :=
  n ≠ "" ∧ n ≠ "." ∧ n ≠ ".."
  ∧ count_char "/" n = 0 ∧ count_char (ascii_of_nat 92) n = 0.

(** [sep.join(segments)] for a separator of one character. *)
Fixpoint join_with (sep : ascii) (segments : list string) : string :=
  match segments with
  | [] => ""
  | [seg] => seg
  | seg :: rest => seg +:+ String sep (join_with sep rest)
  end.

(** The release has a download URL: the condition of line 131. *)
Definition has_download (current_system : string) (current_is_opencl : bool)
    (r : ReleaseInfo) : Prop :=
  PyStr.truthy (download_url (make_entry current_system current_is_opencl r)) = true.

#[export] Instance has_download_dec cs co r : Decision (has_download cs co r).
Proof. unfold has_download. apply _. Defined.

(** The record of a release under its version string. *)
Definition record_of (current_system : string) (current_is_opencl : bool)
    (r : ReleaseInfo) : string * Release :=
  let entry := make_entry current_system current_is_opencl r in
  (version_string entry, entry).

(** ** Sample data *)

Module Sample.

Definition v21 : ReleaseInfo :=
  mkReleaseInfo "BlendLuxCore v2.1" false
    [mkAsset "BlendLuxCore-v2.1-linux64.zip" "https://host/v2.1/linux64.zip";
     mkAsset "BlendLuxCore-v2.1-linux64-opencl.zip" "https://host/v2.1/linux64-opencl.zip";
     mkAsset "BlendLuxCore-v2.1-win64-opencl.zip" "https://host/v2.1/win64-opencl.zip"].

(** A release of the old naming scheme: its asset has four segments. *)
Definition v20alpha1 : ReleaseInfo :=
  mkReleaseInfo "BlendLuxCore v2.0alpha1" true
    [mkAsset "BlendLuxCore-v2.0alpha1-linux64-opencl-sdk.zip" "https://host/v2.0alpha1/sdk.zip"].

Definition v20beta2 : ReleaseInfo :=
  mkReleaseInfo "BlendLuxCore v2.0beta2" true
    [mkAsset "BlendLuxCore-v2.0beta2-linux64-opencl.zip" "https://host/v2.0beta2/linux64-opencl.zip"].

(** A second release that is titled v2.1. *)
Definition v21_again : ReleaseInfo :=
  mkReleaseInfo "BlendLuxCore v2.1" false
    [mkAsset "BlendLuxCore-v2.1-linux64-opencl.zip" "https://host/v2.1-hotfix/linux64-opencl.zip"].

Definition feed : list ReleaseInfo := [v21; v20alpha1; v20beta2; v21_again].

Definition requests_get (url : string) : http_answer :=
  if decide (url = GITHUB_API_RELEASE_URL) then Response true (Some feed) else NoConnection.

Definition bl_info : BlInfo := mkBlInfo (2, 0, 0)%Z "beta2".

(** An installation of v2.0beta2 on Linux, next to the backup a failed
    update has left behind. *)
Definition file_realpath : string := "/addons/BlendLuxCore/operators/update.py".
Definition blendluxcore_dir : string := "/addons/BlendLuxCore".
Definition addon_dir : string := "/addons".
Definition backup_path : string := "/addons/BlendLuxCore_backupb".
Definition temp_dir_path : string := "/tmp/tmpk3v9x1".

Definition installation : node :=
  Dir [("__init__.py", File "bl_info = 2.0 beta2");
       ("operators", Dir [("update.py", File "class LUXCORE_OT_change_version")])].

Definition fs : store :=
  {[ "/addons/BlendLuxCore" := installation;
     "/addons/BlendLuxCore_backup" := Dir [("__init__.py", File "bl_info = 2.0 alpha7")] ]}.

Definition mkdtemp (_ : store) : string := temp_dir_path.

Definition catalog : OrderedDict.t Release :=
  [("v2.1", mkRelease "v2.1" false "https://host/v2.1-hotfix/linux64-opencl.zip");
   ("v2.0beta2", mkRelease "v2.0beta2" true "https://host/v2.0beta2/linux64-opencl.zip")].

Definition w : world := {| w_fs := fs; w_releases := catalog; w_log := [] |}.

(** The network: down, or serving some bytes. *)
Definition urlopen_down (_ : string) : exc + (exc + string) :=
  inl (URLError "<urlopen error timed out>").
Definition urlopen_up (_ : string) : exc + (exc + string) := inr (inr "PK").

(** What the bytes are: an error page, or an archive whose second
    member fails its CRC check. *)
Definition read_html (_ : string) : option (list member) := None.
Definition read_damaged (_ : string) : option (list member) :=
  Some [mkMember "BlendLuxCore" ["__init__.py"] (LFile "bl_info = 2.1") None;
        mkMember "BlendLuxCore" ["bin"; "pyluxcore.so"] (LFile "ELF") (Some "E");
        mkMember "BlendLuxCore" ["operators"; "update.py"] (LFile "class") None].

(** An archive that is in order. *)
Definition read_good (_ : string) : option (list member) :=
  Some [mkMember "BlendLuxCore" [] LDir None;
        mkMember "BlendLuxCore" ["__init__.py"] (LFile "bl_info = 2.1") None;
        mkMember "BlendLuxCore" ["bin"; "pyluxcore.so"] (LFile "ELF") None].

(** An archive that holds a regular file [BlendLuxCore] and a damaged
    member after it. *)
Definition read_misplaced (_ : string) : option (list member) :=
  Some [mkMember "BlendLuxCore" [] (LFile "text") None;
        mkMember "README" [] (LFile "text") (Some "")].

(** An archive with a member that goes below the backup path of the
    sample installation, and with a file [README] that is in the way of
    the member after it. *)
Definition read_astray (_ : string) : option (list member) :=
  Some [mkMember "BlendLuxCore_backupb" ["junk.txt"] (LFile "junk") None;
        mkMember "README" [] (LFile "text") None;
        mkMember "README" ["notes.txt"] (LFile "text") None].

(** The connection breaks while the body is read. *)
Definition urlopen_reset (_ : string) : exc + (exc + string) :=
  inr (inl (OtherException "ConnectionResetError")).

(** The world after the download of those bytes. *)
Definition w_downloaded : world :=
  {| w_fs := <[temp_dir_path := Dir [("default.zip", File "PK")]]> fs;
     w_releases := catalog;
     w_log := [] |}.

End Sample.

(** * Properties *)

(** ** Strings *)

Lemma str_app_cons c (s1 s2 : string) : String c s1 +:+ s2 = String c (s1 +:+ s2).
Proof. reflexivity. Qed.

Lemma str_app_assoc (s1 s2 s3 : string) : (s1 +:+ s2) +:+ s3 = s1 +:+ (s2 +:+ s3).
Proof. induction s1 as [|c s1 IH]; [done|]. by rewrite !str_app_cons, IH. Qed.

Lemma str_app_nil_r (s : string) : s +:+ "" = s.
Proof. induction s as [|c s IH]; [done|]. by rewrite str_app_cons, IH. Qed.

Lemma str_length_app (s1 s2 : string) :
  String.length (s1 +:+ s2) = String.length s1 + String.length s2.
Proof. induction s1 as [|c s1 IH]; [done|]. rewrite str_app_cons. simpl. by rewrite IH. Qed.

Lemma startswith_app old s : PyStr.startswith old (old +:+ s) = true.
Proof.
  induction old as [|c old IH]; [done|].
  rewrite str_app_cons. simpl. by rewrite decide_True.
Qed.

(** The characters of the occurrence that was replaced are passed over. *)
Lemma replace_from_skip old new dropped s :
  PyStr.replace_from old new (String.length dropped) (dropped +:+ s)
  = PyStr.replace_from old new 0 s.
Proof.
  induction dropped as [|c dropped IH]; [by destruct s|].
  rewrite str_app_cons. simpl. exact IH.
Qed.

(** A string that starts with [old] has it replaced there. *)
Lemma replace_prefix c old new s :
  PyStr.replace (String c old +:+ s) (String c old) new = new +:+ PyStr.replace s (String c old) new.
Proof.
  unfold PyStr.replace. rewrite str_app_cons.
  cbn [PyStr.replace_from]. rewrite <-str_app_cons, startswith_app.
  f_equal. replace (String.length (String c old) - 1) with (String.length old)
    by (simpl; lia).
  apply replace_from_skip.
Qed.

(** A string [old] does not occur in is left as it is. *)
Lemma replace_absent old new s :
  PyStr.contains old s = false → PyStr.replace s old new = s.
Proof.
  unfold PyStr.replace. induction s as [|c s IH]; [done|].
  cbn [PyStr.contains PyStr.replace_from].
  intros [Hstart Hrest]%orb_false_iff. rewrite Hstart. f_equal. by apply IH.
Qed.

(** The extension at the end of a name is taken off when it does not
    occur before. *)
Lemma replace_zip_suffix s :
  PyStr.contains ".zip" s = false → PyStr.replace (s +:+ ".zip") ".zip" "" = s.
Proof.
  unfold PyStr.replace. induction s as [|c s IH]; [done|].
  cbn [PyStr.contains]. intros [Hstart Hrest]%orb_false_iff.
  rewrite str_app_cons. cbn [PyStr.replace_from]. rewrite <-str_app_cons.
  assert (PyStr.startswith ".zip" (String c s +:+ ".zip") = false) as ->.
  { revert Hstart. clear.
    destruct s as [|c2 [|c3 [|c4 s]]]; rewrite ?str_app_cons;
      change ("" +:+ ".zip") with ".zip"; cbn; repeat case_decide; by subst. }
  f_equal. by apply IH.
Qed.

(** ** The asset matcher *)

(** For a name of the form [BlendLuxCore-<middle>.zip], in which the
    prefix does not occur again and the extension does not occur before
    the end, the two [replace] calls strip the prefix and the extension:
    the segments are those of the middle. *)
Lemma asset_parts_strips_affixes middle url :
  PyStr.contains "BlendLuxCore-" (middle +:+ ".zip") = false →
  PyStr.contains ".zip" middle = false →
  asset_parts (mkAsset ("BlendLuxCore-" +:+ middle +:+ ".zip") url)
  = PyStr.split middle "-".
Proof.
  intros Hprefix Hzip. unfold asset_parts. cbn [asset_name].
  rewrite replace_prefix. change ("" +:+ ?s) with s.
  rewrite (replace_absent _ _ _ Hprefix). by rewrite replace_zip_suffix.
Qed.

(** Elsewhere in the name the two strings are taken out as well. *)
Example asset_parts_inner_occurrence :
  asset_parts (mkAsset "BlendLuxCore-v2.0-BlendLuxCore-linux64.zip.zip" "")
  = ["v2.0"; "linux64"].
Proof. reflexivity. Qed.

Example asset_parts_opencl :
  asset_parts (mkAsset "BlendLuxCore-v2.0alpha7-linux64-opencl.zip" "")
  = ["v2.0alpha7"; "linux64"; "opencl"].
Proof. reflexivity. Qed.

Example asset_parts_old_scheme :
  asset_parts (mkAsset "BlendLuxCore-v2.0alpha1-linux64-opencl-sdk.zip" "")
  = ["v2.0alpha1"; "linux64"; "opencl"; "sdk"]
  ∧ asset_parts (mkAsset "blendluxcore.zip" "") = ["blendluxcore"].
Proof. split; reflexivity. Qed.

Example replace_does_not_overlap :
  PyStr.replace "aaa" "aa" "b" = "ba" ∧ PyStr.replace "aaaa" "aa" "b" = "bb".
Proof. split; reflexivity. Qed.

Example split_keeps_empty_segments :
  PyStr.split "" "-" = [""] ∧ PyStr.split "-a--b-" "-" = [""; "a"; ""; "b"; ""].
Proof. split; reflexivity. Qed.

(** The split gives one segment more than there are separators. *)
Lemma split_length s sep : length (PyStr.split s sep) = S (count_char sep s).
Proof.
  induction s as [|c s IH]; [done|].
  cbn [PyStr.split count_char]. destruct (decide (c = sep)) as [->|Hne].
  - cbn [length]. by rewrite IH.
  - destruct (PyStr.split s sep) as [|seg segs]; [done|]. exact IH.
Qed.

Section Matcher.

Variable current_system : string.
Variable current_is_opencl : bool.

#[local] Abbreviation scan := (scan_assets current_system current_is_opencl).

Lemma classify_parts_by_length parts :
  classify_parts parts =
    match length parts with
    | 2 => Some (nth 0 parts "", nth 1 parts "", false)
    | 3 => Some (nth 0 parts "", nth 1 parts "", true)
    | _ => None
    end.
Proof. by destruct parts as [|a [|b [|c [|d l]]]]. Qed.

(** One round of the loop over the assets. *)
Lemma scan_assets_cons asset rest entry :
  scan (asset :: rest) entry =
    if decide (asset_matches current_system current_is_opencl asset)
    then set_download_url (browser_download_url asset) entry
    else scan rest entry.
Proof.
  simpl. unfold is_right_asset.
  destruct (decide _) as [Hd|Hd];
    unfold asset_matches, system_segment, accelerated_build in Hd;
    destruct (asset_parts asset) as [|a [|b [|c [|d l]]]]; simpl in *;
    destruct current_is_opencl; repeat case_bool_decide; simpl;
    first [done | intuition congruence | exfalso; apply Hd; by subst].
Qed.

Lemma scan_assets_none assets entry :
  Forall (λ a, ¬ asset_matches current_system current_is_opencl a) assets →
  scan assets entry = entry.
Proof.
  induction 1 as [|a l Ha _ IH]; [done|].
  rewrite scan_assets_cons. by case_decide.
Qed.

Lemma scan_assets_first pre asset post entry :
  Forall (λ a, ¬ asset_matches current_system current_is_opencl a) pre →
  asset_matches current_system current_is_opencl asset →
  scan (pre ++ asset :: post) entry
  = set_download_url (browser_download_url asset) entry.
Proof.
  intros Hpre Ha. induction Hpre as [|a l Hna _ IH]; simpl app.
  - rewrite scan_assets_cons. by case_decide.
  - rewrite scan_assets_cons. by case_decide.
Qed.

(** The loop changes nothing but [download_url]. *)
Lemma scan_assets_version assets entry :
  version_string (scan assets entry) = version_string entry
  ∧ is_prerelease (scan assets entry) = is_prerelease entry.
Proof.
  induction assets as [|a l IH]; [done|].
  rewrite scan_assets_cons. by case_decide.
Qed.

(** Either the loop ends without a match and leaves the entry as it is,
    or it stops at the first matching asset. *)
Lemma scan_assets_cases assets entry :
  (Forall (λ a, ¬ asset_matches current_system current_is_opencl a) assets
   ∧ scan assets entry = entry)
  ∨ (∃ pre asset post,
      assets = pre ++ asset :: post
      ∧ Forall (λ a, ¬ asset_matches current_system current_is_opencl a) pre
      ∧ asset_matches current_system current_is_opencl asset
      ∧ scan assets entry = set_download_url (browser_download_url asset) entry).
Proof.
  induction assets as [|a l IH].
  - left. by split.
  - destruct (decide (asset_matches current_system current_is_opencl a)) as [Ha|Ha].
    + right. exists [], a, l. split_and!; [done|constructor|done|].
      rewrite scan_assets_cons. by case_decide.
    + destruct IH as [[Hl Hs]|(pre & b & post & -> & Hpre & Hb & Hs)].
      * left. split; [by constructor|]. rewrite scan_assets_cons. by case_decide.
      * right. exists (a :: pre), b, post. split_and!; [done|by constructor|done|].
        rewrite scan_assets_cons. by case_decide.
Qed.


End Matcher.

(** Refutes [asset_matches] for an asset that is given. *)
Ltac lacks_match :=
  let Hs := fresh in let Ha := fresh in
  intros [Hs Ha]; vm_compute in Hs, Ha; congruence.

(** C6.  The download URL of the entry built for a release is the
    [browser_download_url] of the first asset of the release whose system
    segment is the current system and whose accelerated-build flag is the
    current one: the assets before it are passed over and those after it
    are not looked at, whatever they are.  For the release with the assets
    [...-linux64.zip] and [...-linux64-opencl.zip] on an accelerated
    linux64 installation this is the URL of the [-opencl] asset. *)
Theorem first_matching_asset_wins current_system current_is_opencl
    release_info pre asset post :
  assets release_info = pre ++ asset :: post →
  Forall (λ a, ¬ asset_matches current_system current_is_opencl a) pre →
  asset_matches current_system current_is_opencl asset →
  download_url (make_entry current_system current_is_opencl release_info)
    = browser_download_url asset
  ∧ (∀ entry post',
      scan_assets current_system current_is_opencl (pre ++ asset :: post') entry
      = scan_assets current_system current_is_opencl (pre ++ asset :: post) entry)
  ∧ (∀ title unstable url_plain url_opencl,
      download_url (make_entry "linux64" true
        (mkReleaseInfo title unstable
          [mkAsset "BlendLuxCore-v2.1-linux64.zip" url_plain;
           mkAsset "BlendLuxCore-v2.1-linux64-opencl.zip" url_opencl]))
      = url_opencl).
Proof.
  intros Hassets Hpre Hasset. split_and!.
  - unfold make_entry. rewrite Hassets. by rewrite scan_assets_first.
  - intros entry post'. by rewrite !scan_assets_first.
  - done.
Qed.

Lemma first_matching_asset_wins_witness :
  download_url (make_entry "win64" false
    (mkReleaseInfo "BlendLuxCore v2.0alpha7" true
      [mkAsset "BlendLuxCore-v2.0alpha7-linux64.zip" "https://host/linux64.zip";
       mkAsset "BlendLuxCore-v2.0alpha7-win64-opencl.zip" "https://host/win64-opencl.zip";
       mkAsset "BlendLuxCore-v2.0alpha7-win64.zip" "https://host/win64.zip";
       mkAsset "BlendLuxCore-v2.0alpha7-win64.zip" "https://host/again.zip"]))
  = "https://host/win64.zip".
Proof.
  refine (proj1 (first_matching_asset_wins "win64" false _
    [mkAsset "BlendLuxCore-v2.0alpha7-linux64.zip" "https://host/linux64.zip";
     mkAsset "BlendLuxCore-v2.0alpha7-win64-opencl.zip" "https://host/win64-opencl.zip"]
    (mkAsset "BlendLuxCore-v2.0alpha7-win64.zip" "https://host/win64.zip")
    [mkAsset "BlendLuxCore-v2.0alpha7-win64.zip" "https://host/again.zip"] _ _ _)).
  - reflexivity.
  - repeat (apply Forall_cons_2); [lacks_match..|apply Forall_nil_2].
  - split; reflexivity.
Defined.

(** ** [OrderedDict] *)

Section OrderedDictFacts.

Context {V : Type}.
Implicit Types (d : OrderedDict.t V) (k : string) (v : V).

Lemma od_get_set_eq d k v : OrderedDict.get (OrderedDict.set d k v) k = Some v.
Proof.
  induction d as [|[k' v'] d IH]; simpl.
  - by case_decide.
  - case_decide; simpl; by case_decide.
Qed.

Lemma od_get_set_ne d k k' v :
  k ≠ k' → OrderedDict.get (OrderedDict.set d k v) k' = OrderedDict.get d k'.
Proof.
  intros Hne. induction d as [|[k0 v0] d IH]; simpl.
  - by case_decide.
  - case_decide; simpl; repeat case_decide; congruence.
Qed.

Lemma od_elem_of_set d k v k' v' :
  (k', v') ∈ OrderedDict.set d k v → (k' = k ∧ v' = v) ∨ (k', v') ∈ d.
Proof.
  induction d as [|[k0 v0] d IH]; simpl.
  - intros [= -> ->]%list_elem_of_singleton. by left.
  - case_decide.
    + intros [[= -> ->]|?]%elem_of_cons; [by left|]. right. by apply elem_of_cons; right.
    + intros [[= -> ->]|?]%elem_of_cons; [right; by apply elem_of_cons; left|].
      destruct IH as [?|?]; [done|by left|]. right. by apply elem_of_cons; right.
Qed.

Lemma od_get_elem_of d k v : OrderedDict.get d k = Some v → (k, v) ∈ d.
Proof.
  induction d as [|[k0 v0] d IH]; simpl; [done|].
  case_decide.
  - intros [= ->]. subst. by apply elem_of_cons; left.
  - intros. apply elem_of_cons; right. by apply IH.
Qed.

Lemma od_get_None d k : OrderedDict.get d k = None ↔ k ∉ OrderedDict.keys d.
Proof.
  unfold OrderedDict.keys. induction d as [|[k0 v0] d IH]; simpl.
  - split; [intros _; apply not_elem_of_nil|done].
  - rewrite not_elem_of_cons. destruct (decide (k0 = k)) as [->|Hne].
    + split; [done|]. by intros [? _].
    + rewrite IH. split; [by split|by intros [_ ?]].
Qed.

(** Assigning to a key that is there leaves the order of the keys as it
    is; a new key goes last. *)
Lemma od_keys_set d k v :
  OrderedDict.keys (OrderedDict.set d k v) =
    if decide (k ∈ OrderedDict.keys d) then OrderedDict.keys d
    else OrderedDict.keys d ++ [k].
Proof.
  unfold OrderedDict.keys. induction d as [|[k0 v0] d IH]; simpl.
  - done.
  - destruct (decide (k0 = k)) as [->|Hne]; simpl.
    + rewrite decide_True; [done|by apply elem_of_cons; left].
    + rewrite IH. destruct (decide (k ∈ map fst d)) as [Hin|Hin].
      * rewrite decide_True; [done|by apply elem_of_cons; right].
      * rewrite decide_False; [done|]. rewrite elem_of_cons. by intros [?|?].
Qed.

Lemma od_NoDup_set d k v :
  NoDup (OrderedDict.keys d) → NoDup (OrderedDict.keys (OrderedDict.set d k v)).
Proof.
  intros Hd. rewrite od_keys_set. case_decide; [done|].
  apply NoDup_app. split_and!; [done| |apply NoDup_singleton].
  intros x Hx ->%list_elem_of_singleton. done.
Qed.

(** A key of a dictionary has one record. *)
Lemma od_filter_key d k v :
  NoDup (OrderedDict.keys d) → OrderedDict.get d k = Some v →
  filter (λ kv, kv.1 = k) d = [(k, v)].
Proof.
  unfold OrderedDict.keys. induction d as [|[k0 v0] d IH]; [done|].
  rewrite fmap_cons, NoDup_cons, filter_cons. intros [Hk0 Hd]. simpl.
  destruct (decide (k0 = k)) as [->|Hne].
  - intros [= ->]. f_equal.
    clear IH Hd. induction d as [|[k1 v1] d IH]; [done|].
    rewrite fmap_cons, not_elem_of_cons in Hk0. destruct Hk0 as [Hne Hk0].
    simpl in Hne. rewrite filter_cons. simpl.
    rewrite decide_False; [|congruence]. by apply IH.
  - intros Hget. by apply IH.
Qed.

End OrderedDictFacts.

(** ** The catalog *)

Lemma truthy_nonempty s : PyStr.truthy s = true ↔ s ≠ "".
Proof. by destruct s. Qed.

Section Catalog.

Variable current_system : string.
Variable current_is_opencl : bool.

#[local] Abbreviation entry_of := (make_entry current_system current_is_opencl).
#[local] Abbreviation fill := (fill_releases current_system current_is_opencl).
#[local] Abbreviation matches := (asset_matches current_system current_is_opencl).

Lemma fill_releases_app rs1 rs2 d : fill (rs1 ++ rs2) d = fill rs2 (fill rs1 d).
Proof. revert d. induction rs1 as [|r rs1 IH]; intros d; [done|]. simpl. apply IH. Qed.

(** A release without a matching asset has no download URL; one with a
    matching asset has the URL of the first. *)
Lemma make_entry_unmatched r :
  Forall (λ a, ¬ matches a) (assets r) → download_url (entry_of r) = "".
Proof. intros Hr. unfold make_entry. by rewrite scan_assets_none. Qed.

Lemma make_entry_matched r :
  download_url (entry_of r) ≠ "" →
  ∃ asset, asset ∈ assets r ∧ matches asset
    ∧ download_url (entry_of r) = browser_download_url asset.
Proof.
  unfold make_entry.
  destruct (scan_assets_cases current_system current_is_opencl (assets r)
    (set_is_prerelease (prerelease r)
      (set_version_string (PyStr.replace (name r) "BlendLuxCore " "") Release_new)))
    as [[_ ->]|(pre & a & post & Heq & _ & Ha & ->)]; [done|].
  intros _. exists a. split_and!; [|done..].
  rewrite Heq. apply elem_of_app; right. by apply elem_of_cons; left.
Qed.

(** Every record of the filled catalog was there before or was built
    from a release of the feed that has a download URL. *)
Lemma fill_releases_elem_of rs d k e :
  (k, e) ∈ fill rs d →
  (k, e) ∈ d
  ∨ ∃ r, r ∈ rs ∧ e = entry_of r ∧ k = version_string e ∧ download_url e ≠ "".
Proof.
  revert d. induction rs as [|r rs IH]; intros d; [by left|].
  simpl. intros [Hin|(r' & Hr' & ?)]%IH.
  - destruct (PyStr.truthy _) eqn:Hurl; [|by left].
    apply od_elem_of_set in Hin as [[-> ->]|?]; [|by left].
    right. exists r. split_and!; [by apply elem_of_cons; left|done..|by apply truthy_nonempty].
  - right. exists r'. split; [by apply elem_of_cons; right|done].
Qed.

Lemma fill_releases_NoDup rs d :
  NoDup (OrderedDict.keys d) → NoDup (OrderedDict.keys (fill rs d)).
Proof.
  revert d. induction rs as [|r rs IH]; intros d Hd; [done|].
  simpl. apply IH. destruct (PyStr.truthy _); [by apply od_NoDup_set|done].
Qed.

(** Releases that yield another version string, or no download URL,
    leave the record of a version string alone. *)
Lemma fill_releases_get_other rs d v :
  Forall (λ r, version_string (entry_of r) = v → download_url (entry_of r) = "") rs →
  OrderedDict.get (fill rs d) v = OrderedDict.get d v.
Proof.
  intros Hrs. revert d. induction Hrs as [|r rs Hr _ IH]; intros d; [done|].
  simpl. rewrite IH. destruct (PyStr.truthy _) eqn:Hurl; [|done].
  apply od_get_set_ne. intros Hv. apply truthy_nonempty in Hurl. by apply Hurl, Hr.
Qed.

End Catalog.

Section Invoke.

Variable requests_get : string → http_answer.
Variable platform_system : string.
Variable LUXRAYS_DISABLE_OPENCL : bool.

#[local] Abbreviation invoke' := (invoke requests_get platform_system LUXRAYS_DISABLE_OPENCL).

(** The feed is read and the platform is known: the catalog is rebuilt
    from the feed, nothing is reported. *)
Lemma invoke_success w response current_system :
  requests_get GITHUB_API_RELEASE_URL = Response true (Some response) →
  OrderedDict.get system_mapping platform_system = Some current_system →
  invoke' w =
    (Val RUNNING_MODAL,
     {| w_fs := w_fs w;
        w_releases :=
          fill_releases current_system (negb LUXRAYS_DISABLE_OPENCL) response [];
        w_log := w_log w ++ [EvGet GITHUB_API_RELEASE_URL] |}).
Proof.
  intros Hget Hsys. unfold invoke, bind, attempt, http_get, call, modify_releases. simpl.
  rewrite Hget. simpl. unfold bind. simpl. simpl in Hsys. by rewrite Hsys.
Qed.

(** The three failures of the fetch: each is reported, the operator is
    cancelled, and the catalog is left empty. *)
Lemma invoke_no_connection w :
  requests_get GITHUB_API_RELEASE_URL = NoConnection →
  invoke' w =
    (Val CANCELLED,
     {| w_fs := w_fs w; w_releases := [];
        w_log := (w_log w ++ [EvGet GITHUB_API_RELEASE_URL])
                 ++ [EvReport "ERROR" "Connection error"] |}).
Proof.
  intros Hget. unfold invoke, bind, attempt, http_get, call, modify_releases. simpl.
  by rewrite Hget.
Qed.

Lemma invoke_response_not_ok w body :
  requests_get GITHUB_API_RELEASE_URL = Response false body →
  invoke' w =
    (Val CANCELLED,
     {| w_fs := w_fs w; w_releases := [];
        w_log := (w_log w ++ [EvGet GITHUB_API_RELEASE_URL])
                 ++ [EvReport "ERROR" "Response not ok"] |}).
Proof.
  intros Hget. unfold invoke, bind, attempt, http_get, call, modify_releases. simpl.
  by rewrite Hget.
Qed.

Lemma invoke_unsupported_system w response :
  requests_get GITHUB_API_RELEASE_URL = Response true (Some response) →
  OrderedDict.get system_mapping platform_system = None →
  invoke' w =
    (Val CANCELLED,
     {| w_fs := w_fs w; w_releases := [];
        w_log := (w_log w ++ [EvGet GITHUB_API_RELEASE_URL])
                 ++ [EvReport "ERROR" ("Unsupported system: " +:+ platform_system)] |}).
Proof.
  intros Hget Hsys. unfold invoke, bind, attempt, http_get, call, modify_releases. simpl.
  rewrite Hget. simpl. unfold bind. simpl. simpl in Hsys. by rewrite Hsys.
Qed.

(** C3.  When the fetcher has processed a feed, every record of the
    final catalog has a non-empty download URL, which is the URL of a
    matching asset of the release of the feed the record was built from;
    and a release of the feed none of whose assets matches the current
    system and backend has no record in the catalog (its version string
    is no key of the catalog either, unless another release of the same
    version string has a matching asset). *)
Theorem catalog_holds_only_matched_releases w response current_system :
  requests_get GITHUB_API_RELEASE_URL = Response true (Some response) →
  OrderedDict.get system_mapping platform_system = Some current_system →
  let current_is_opencl := negb LUXRAYS_DISABLE_OPENCL in
  let matches := asset_matches current_system current_is_opencl in
  let entry_of := make_entry current_system current_is_opencl in
  let catalog := w_releases (invoke' w).2 in
  (∀ k e, (k, e) ∈ catalog →
     download_url e ≠ ""
     ∧ ∃ r asset, r ∈ response ∧ e = entry_of r ∧ k = version_string e
         ∧ asset ∈ assets r ∧ matches asset
         ∧ download_url e = browser_download_url asset)
  ∧ (∀ r, r ∈ response → Forall (λ a, ¬ matches a) (assets r) →
       (entry_of r ∉ OrderedDict.values catalog)
       ∧ (Forall (λ r', version_string (entry_of r') = version_string (entry_of r) →
                        Forall (λ a, ¬ matches a) (assets r')) response →
          OrderedDict.get catalog (version_string (entry_of r)) = None)).
Proof.
  intros Hget Hsys current_is_opencl matches entry_of catalog.
  assert (catalog = fill_releases current_system current_is_opencl response []) as Hcat.
  { unfold catalog. by rewrite (invoke_success _ _ _ Hget Hsys). }
  assert (∀ k e, (k, e) ∈ catalog → download_url e ≠ ""
            ∧ ∃ r, r ∈ response ∧ e = entry_of r ∧ k = version_string e) as Hall.
  { intros k e. rewrite Hcat.
    intros [Hin|(r & ? & ? & ? & ?)]%fill_releases_elem_of;
      [by apply elem_of_nil in Hin|eauto]. }
  split.
  - intros k e Hin. destruct (Hall k e Hin) as (Hurl & r & Hr & -> & ->).
    split; [done|].
    destruct (make_entry_matched _ _ _ Hurl) as (asset & ? & ? & ?).
    by exists r, asset.
  - intros r Hr Hnone. split.
    + unfold OrderedDict.values. intros ([k e] & Heq & Hin)%list_elem_of_fmap.
      simpl in Heq. subst e. destruct (Hall _ _ Hin) as [Hurl _].
      apply Hurl. by apply make_entry_unmatched.
    + intros Hsame. rewrite Hcat.
      rewrite fill_releases_get_other; [done|].
      eapply Forall_impl; [exact Hsame|]. simpl.
      intros r' Hr' Hv. by apply make_entry_unmatched, Hr'.
Qed.

End Invoke.

(** The catalog of the sample feed on an accelerated Linux installation. *)
Lemma catalog_holds_only_matched_releases_witness :
  let catalog :=
    w_releases (invoke Sample.requests_get "Linux" false (mkWorld ∅ [] [])).2 in
  (∀ k e, (k, e) ∈ catalog → download_url e ≠ "")
  ∧ OrderedDict.keys catalog = ["v2.1"; "v2.0beta2"]
  ∧ OrderedDict.get catalog "v2.0alpha1" = None.
Proof.
  pose proof (catalog_holds_only_matched_releases Sample.requests_get "Linux" false
    (mkWorld ∅ [] []) Sample.feed "linux64" eq_refl eq_refl) as [Hin Hout].
  split_and!.
  - intros k e Hke. by destruct (Hin k e Hke).
  - reflexivity.
  - refine (proj2 (Hout Sample.v20alpha1 _ _) _).
    + unfold Sample.feed. apply elem_of_cons; right. by apply elem_of_cons; left.
    + apply Forall_cons_2; [lacks_match|apply Forall_nil_2].
    + unfold Sample.feed. repeat (apply Forall_cons_2); [..|apply Forall_nil_2];
        intros Hv; try (vm_compute in Hv; congruence).
      apply Forall_cons_2; [lacks_match|apply Forall_nil_2].
Defined.

(** [invoke] on the sample feed fills the catalog the sample world has. *)
Example invoke_sample :
  invoke Sample.requests_get "Linux" false
    {| w_fs := Sample.fs; w_releases := []; w_log := [] |}
  = (Val RUNNING_MODAL,
     {| w_fs := Sample.fs; w_releases := Sample.catalog;
        w_log := [EvGet GITHUB_API_RELEASE_URL] |}).
Proof. reflexivity. Qed.

Example invoke_sample_on_a_mac :
  invoke Sample.requests_get "Darwin" false
    {| w_fs := Sample.fs; w_releases := Sample.catalog; w_log := [] |}
  = (Val CANCELLED,
     {| w_fs := Sample.fs; w_releases := [];
        w_log := [EvGet GITHUB_API_RELEASE_URL;
                  EvReport "ERROR" "Unsupported system: Darwin"] |}).
Proof. reflexivity. Qed.

Section Overwrite.

Variable requests_get : string → http_answer.
Variable platform_system : string.
Variable LUXRAYS_DISABLE_OPENCL : bool.

(** C10.  The catalog is keyed by the version string.  When two
    releases of the feed yield the same version string and each has a
    matching asset and so a download URL, the later one being the last
    such release of the feed, the final catalog has exactly one record
    under that version string, and it is the record built from the later
    release: it has taken the place of the record of the earlier one,
    which was there when the loop had come as far as the earlier
    release. *)
Theorem later_release_overwrites w current_system pre r1 mid r2 post v :
  requests_get GITHUB_API_RELEASE_URL
    = Response true (Some (pre ++ r1 :: mid ++ r2 :: post)) →
  OrderedDict.get system_mapping platform_system = Some current_system →
  let current_is_opencl := negb LUXRAYS_DISABLE_OPENCL in
  let entry_of := make_entry current_system current_is_opencl in
  version_string (entry_of r1) = v →
  version_string (entry_of r2) = v →
  download_url (entry_of r1) ≠ "" →
  download_url (entry_of r2) ≠ "" →
  Forall (λ r, version_string (entry_of r) = v → download_url (entry_of r) = "") post →
  let catalog :=
    w_releases (invoke requests_get platform_system LUXRAYS_DISABLE_OPENCL w).2 in
  OrderedDict.get catalog v = Some (entry_of r2)
  ∧ filter (λ kv, kv.1 = v) catalog = [(v, entry_of r2)]
  ∧ OrderedDict.get
      (fill_releases current_system current_is_opencl (pre ++ [r1]) []) v
    = Some (entry_of r1).
Proof.
  intros Hget Hsys current_is_opencl entry_of Hv1 Hv2 Hu1 Hu2 Hpost catalog.
  assert (catalog = fill_releases current_system current_is_opencl
            (pre ++ r1 :: mid ++ r2 :: post) []) as Hcat.
  { unfold catalog. by rewrite (invoke_success _ _ _ _ _ _ Hget Hsys). }
  assert (OrderedDict.get catalog v = Some (entry_of r2)) as Hlookup.
  { rewrite Hcat.
    replace (pre ++ r1 :: mid ++ r2 :: post)
      with ((pre ++ r1 :: mid) ++ [r2] ++ post) by by rewrite <-app_assoc.
    rewrite !fill_releases_app, fill_releases_get_other by done.
    simpl. fold current_is_opencl. fold entry_of.
    apply truthy_nonempty in Hu2. rewrite Hu2, Hv2. apply od_get_set_eq. }
  split_and!; [done| |].
  - apply od_filter_key; [|done]. rewrite Hcat.
    apply fill_releases_NoDup. constructor.
  - rewrite fill_releases_app. simpl. fold current_is_opencl. fold entry_of.
    apply truthy_nonempty in Hu1. rewrite Hu1, Hv1. apply od_get_set_eq.
Qed.

End Overwrite.

(** The sample feed has two releases titled v2.1. *)
Lemma later_release_overwrites_witness :
  let catalog :=
    w_releases (invoke Sample.requests_get "Linux" false (mkWorld ∅ [] [])).2 in
  OrderedDict.get catalog "v2.1"
    = Some (mkRelease "v2.1" false "https://host/v2.1-hotfix/linux64-opencl.zip")
  ∧ filter (λ kv, kv.1 = "v2.1") catalog
    = [("v2.1", mkRelease "v2.1" false "https://host/v2.1-hotfix/linux64-opencl.zip")].
Proof.
  pose proof (later_release_overwrites Sample.requests_get "Linux" false
    (mkWorld ∅ [] []) "linux64" [] Sample.v21 [Sample.v20alpha1; Sample.v20beta2]
    Sample.v21_again [] "v2.1" eq_refl eq_refl eq_refl eq_refl) as Hthm.
  simpl in Hthm.
  destruct Hthm as (Hget & Hone & _); [discriminate|discriminate|constructor|].
  by split.
Defined.

(** ** The version selector *)

Lemma items_loop_spec current_version i values items :
  items_loop current_version i values items
  = items ++ imap (λ j, selectable current_version (i + j)) values.
Proof.
  revert i items. induction values as [|release rest IH]; intros i items.
  - simpl. by rewrite app_nil_r.
  - simpl. unfold selectable at 1, annotation_of.
    replace (i + 0) with i by lia.
    destruct (decide (version_string release = current_version));
      [|destruct (is_prerelease release)]; simpl;
      rewrite IH, <-app_assoc; simpl; do 2 f_equal;
      apply imap_ext; intros j x _; simpl; f_equal; lia.
Qed.

(** C9.  The selector gives one item per record of the catalog, in the
    order of the catalog, numbered from 0; the item of a record carries
    its version string and the annotation the rules give in their order
    of priority: "installed" when the version string is the current
    version, also for a prerelease; otherwise "unstable" for a
    prerelease; otherwise none. *)
Theorem selector_lists_catalog_in_order bl_info (releases : OrderedDict.t Release) :
  let current_version := get_current_version bl_info in
  let items := release_items_callback bl_info releases in
  items = imap (selectable current_version) (OrderedDict.values releases)
  ∧ length items = length releases
  ∧ (∀ i k release, releases !! i = Some (k, release) →
       items !! i = Some (version_string release, version_string release,
                          annotation_text (annotation_of current_version release),
                          annotation_icon (annotation_of current_version release), i))
  ∧ (∀ release, version_string release = current_version →
       annotation_of current_version release = Installed)
  ∧ (∀ release, version_string release ≠ current_version →
       annotation_of current_version release
       = if is_prerelease release then Unstable else Unmarked).
Proof.
  intros current_version items.
  assert (items = imap (selectable current_version) (OrderedDict.values releases)) as Hitems.
  { unfold items, release_items_callback. rewrite items_loop_spec. simpl.
    apply imap_ext. by intros. }
  split_and!.
  - done.
  - rewrite Hitems. unfold OrderedDict.values.
    by rewrite length_imap, length_map.
  - intros i k release Hi. rewrite Hitems, list_lookup_imap.
    unfold OrderedDict.values. change (map snd releases) with (snd <$> releases).
    by rewrite list_lookup_fmap, Hi.
  - intros release Hv. unfold annotation_of. by rewrite decide_True.
  - intros release Hv. unfold annotation_of. by rewrite decide_False.
Qed.

Example selector_sample :
  release_items_callback Sample.bl_info
    (w_releases (invoke Sample.requests_get "Linux" false (mkWorld ∅ [] [])).2)
  = [("v2.1", "v2.1", "", "NONE", 0);
     ("v2.0beta2", "v2.0beta2", " (installed)", "FILE_TICK", 1)].
Proof. reflexivity. Qed.

(** ** The backup path *)

Lemma as_long_as_shrinks (fs : store) p :
  is_Some (fs !! p) → as_long_as fs (p +:+ "b") ⊂ as_long_as fs p.
Proof.
  intros Hp. unfold as_long_as. apply elem_of_subset. split.
  - intros k [Hlen Hk]%elem_of_filter. apply elem_of_filter. split; [|done].
    rewrite str_length_app in Hlen. simpl in Hlen. lia.
  - intros Hall. specialize (Hall p). rewrite !elem_of_filter in Hall.
    destruct Hall as [Hlen _]; [split; [lia|by apply elem_of_dom]|].
    rewrite str_length_app in Hlen. simpl in Hlen. lia.
Qed.

Lemma backup_loop_spec (fs : store) fuel p :
  size (as_long_as fs p) < fuel →
  ∃ n, backup_loop fs fuel p = Some (p +:+ bs n)
       ∧ fs !! (p +:+ bs n) = None
       ∧ ∀ i, i < n → is_Some (fs !! (p +:+ bs i)).
Proof.
  revert p. induction fuel as [|fuel IH]; intros p Hfuel; [lia|].
  simpl. case_bool_decide as Hp.
  - destruct (IH (p +:+ "b")) as (n & Hloop & Hfree & Htaken).
    { pose proof (subset_size _ _ (as_long_as_shrinks fs p Hp)). lia. }
    exists (S n). simpl. rewrite <-!str_app_assoc. split_and!; [done..|].
    intros [|i] Hi; simpl.
    + by rewrite str_app_nil_r.
    + rewrite <-str_app_assoc. apply Htaken. lia.
  - exists 0. simpl. rewrite str_app_nil_r. split_and!; [done| |lia].
    by apply eq_None_not_Some.
Qed.

(** The fuel [choose_backup_path] gives the loop is enough. *)
Lemma backup_loop_total (fs : store) p :
  ∃ n, backup_loop fs (S (size fs)) p = Some (p +:+ bs n)
       ∧ fs !! (p +:+ bs n) = None
       ∧ ∀ i, i < n → is_Some (fs !! (p +:+ bs i)).
Proof.
  apply backup_loop_spec.
  assert (size (as_long_as fs p) ≤ size (dom fs)) as Hle.
  { apply subseteq_size. unfold as_long_as. intros k [_ ?]%elem_of_filter. done. }
  rewrite size_dom in Hle. lia.
Qed.

(** C8.  The backup path is the path of the installation root followed
    by ["_backup"] and then by as many letters ["b"] as it takes to reach
    a name that does not exist: every shorter candidate exists, the chosen
    one does not, and the search ends.  With [<root>_backup] there and
    [<root>_backupb] free the choice is [<root>_backupb]. *)
Theorem backup_path_appends_b w blendluxcore_dir :
  (∃ n,
     choose_backup_path blendluxcore_dir w
       = (Val ((blendluxcore_dir +:+ "_backup") +:+ bs n), w)
     ∧ w_fs w !! ((blendluxcore_dir +:+ "_backup") +:+ bs n) = None
     ∧ ∀ i, i < n → is_Some (w_fs w !! ((blendluxcore_dir +:+ "_backup") +:+ bs i)))
  ∧ (is_Some (w_fs w !! (blendluxcore_dir +:+ "_backup")) →
     w_fs w !! (blendluxcore_dir +:+ "_backupb") = None →
     choose_backup_path blendluxcore_dir w = (Val (blendluxcore_dir +:+ "_backupb"), w)).
Proof.
  destruct (backup_loop_total (w_fs w) (blendluxcore_dir +:+ "_backup"))
    as (n & Hloop & Hfree & Htaken).
  assert (choose_backup_path blendluxcore_dir w
          = (Val ((blendluxcore_dir +:+ "_backup") +:+ bs n), w)) as Hchoose.
  { unfold choose_backup_path. by rewrite Hloop. }
  split; [by exists n|].
  intros Hbackup Hb. rewrite Hchoose. do 2 f_equal.
  assert ((blendluxcore_dir +:+ "_backup") +:+ bs 1 = blendluxcore_dir +:+ "_backupb")
    as Hone by by rewrite str_app_assoc.
  destruct n as [|[|n]].
  - simpl in Hfree. rewrite str_app_nil_r in Hfree. rewrite Hfree in Hbackup.
    by destruct Hbackup.
  - done.
  - specialize (Htaken 1 ltac:(lia)). rewrite Hone, Hb in Htaken. by destruct Htaken.
Qed.

Example backup_path_sample :
  choose_backup_path "/addons/BlendLuxCore"
    (mkWorld {[ "/addons/BlendLuxCore" := Dir [];
                "/addons/BlendLuxCore_backup" := Dir [];
                "/addons/BlendLuxCore_backupb" := File "";
                "/addons/BlendLuxCore_backupbbb" := Dir [] ]} [] [])
  = (Val "/addons/BlendLuxCore_backupbb",
     mkWorld {[ "/addons/BlendLuxCore" := Dir [];
                "/addons/BlendLuxCore_backup" := Dir [];
                "/addons/BlendLuxCore_backupb" := File "";
                "/addons/BlendLuxCore_backupbbb" := Dir [] ]} [] []).
Proof. reflexivity. Qed.

(** ** The installer *)

(** Runs the operator's monad as far as the constructors are known,
    leaving the store, the strings and the surroundings as they are. *)
Ltac run_op :=
  cbv beta iota zeta delta
    [bind ret raise attempt call print report get_fs modify_fs get_releases
     modify_releases emit with_fs with_releases
     is_URLError is_Exception is_ConnectionError];
  cbn [w_fs w_releases w_log fst snd].

Section Installer.

Context `{OsPath}.
Variable bl_info : BlInfo.
Variable urlopen : string → exc + (exc + string).
Variable read_zip : string → option (list member).
Variable file_realpath : string.
Variable mkdtemp : store → string.

#[local] Abbreviation execute' :=
  (execute bl_info urlopen read_zip file_realpath mkdtemp).

(** C2.  When the selected release has the version string of the
    installed version, [execute] reports "This is the currently
    installed version" and is cancelled at once: the report is the only
    event, so nothing is downloaded, moved or extracted, and the file
    system and the catalog are as before. *)
Theorem installed_version_is_refused selected_release requested_release w :
  OrderedDict.get (w_releases w) selected_release = Some requested_release →
  version_string requested_release = get_current_version bl_info →
  execute' selected_release w
    = (Val CANCELLED,
       emit (EvReport "ERROR" "This is the currently installed version") w)
  ∧ w_fs (execute' selected_release w).2 = w_fs w
  ∧ w_releases (execute' selected_release w).2 = w_releases w
  ∧ w_log (execute' selected_release w).2
    = w_log w ++ [EvReport "ERROR" "This is the currently installed version"].
Proof.
  intros Hget Hversion.
  assert (execute' selected_release w
    = (Val CANCELLED,
       emit (EvReport "ERROR" "This is the currently installed version") w)) as Hrun.
  { unfold execute, bind, get_releases. rewrite Hget.
    by rewrite decide_True by done. }
  by rewrite Hrun.
Qed.

(** C7 (amended).  When the download fails, at [urlopen] or while the
    body is read, the temporary directory [execute] made is removed
    again and nothing was moved, deleted or extracted: the file system
    is as it was before the call.  When the failure is a [URLError],
    [execute] reports "Could not download: " followed by the cause and
    is cancelled.  Any other exception is not caught by the [except]
    clause of line 162: it leaves [execute] and nothing is reported. *)
Theorem download_failure_leaves_installation
    selected_release requested_release w e :
  OrderedDict.get (w_releases w) selected_release = Some requested_release →
  version_string requested_release ≠ get_current_version bl_info →
  urlopen (download_url requested_release) = inl e
  ∨ urlopen (download_url requested_release) = inr (inl e) →
  w_fs w !! mkdtemp (w_fs w) = None →
  ∃ events,
    execute' selected_release w
      = ((if is_URLError e then Val CANCELLED else Raise e),
         {| w_fs := w_fs w; w_releases := w_releases w; w_log := w_log w ++ events |})
    ∧ reports events
      = (if is_URLError e then [("ERROR", "Could not download: " +:+ exc_str e)] else [])
    ∧ Forall (λ ev, changes_installation ev = false) events
    ∧ EvMkdtemp (mkdtemp (w_fs w)) ∈ events
    ∧ last events = Some (EvCleanup (mkdtemp (w_fs w))).
Proof.
  destruct w as [fs releases log]. cbn [w_fs w_releases w_log].
  intros Hget Hversion Hurl Hfresh.
  unfold execute. run_op. rewrite Hget.
  rewrite decide_False by done.
  unfold with_TemporaryDirectory, download_and_replace, download. run_op.
  destruct Hurl as [Hurl|Hurl]; rewrite Hurl; run_op;
    [|unfold write_file; run_op; rewrite lookup_insert_eq;
      cbv beta iota delta [Entries.get]; run_op];
    destruct e; run_op; cbn [is_URLError];
    (eexists; split_and!;
     [do 2 f_equal;
      [rewrite ?insert_insert_eq; by apply delete_insert_id
      |rewrite <-!app_assoc; reflexivity]
     |reflexivity
     |repeat constructor
     |do 4 (apply elem_of_cons; right); by apply elem_of_cons; left
     |reflexivity]).
Qed.

Lemma entries_get_head n x es : Entries.get ((n, x) :: es) n = Some x.
Proof. simpl. by rewrite decide_True. Qed.

Lemma entries_set_head n x y es : Entries.set ((n, x) :: es) n y = (n, y) :: es.
Proof. simpl. by rewrite decide_True. Qed.

(** The download, when both [urlopen] and [read] succeed: the body is
    in the file [default.zip] of the temporary directory. *)
Lemma download_ok url temp_dir_path data fs releases log :
  urlopen url = inr (inr data) →
  download urlopen url temp_dir_path "default.zip"
    {| w_fs := <[temp_dir_path := Dir []]> fs; w_releases := releases; w_log := log |}
  = (Val tt,
     {| w_fs := <[temp_dir_path := Dir [("default.zip", File data)]]> fs;
        w_releases := releases;
        w_log := (log ++ [EvUrlopen url]) ++ [EvOpenWrite temp_dir_path "default.zip"] |}).
Proof.
  intros Hurl. unfold download. run_op. rewrite Hurl. run_op.
  unfold write_file. run_op. rewrite lookup_insert_eq.
  change (Entries.get [] "default.zip") with (@None node). run_op.
  rewrite lookup_insert_eq.
  change (Entries.set [] "default.zip" (File "")) with [("default.zip", File "")].
  rewrite entries_get_head. run_op.
  rewrite entries_set_head. by rewrite !insert_insert_eq.
Qed.

End Installer.

(** ** The backup move and the rollback *)

Lemma write_at_no_file rest l o x :
  write_at rest l o = Some x → rest ≠ [] ∨ l = LDir → no_file (Some x).
Proof.
  intros Hw Hdir. destruct rest as [|n rest].
  - destruct Hdir as [?| ->]; [done|]. simpl in Hw.
    destruct o as [[|es]|]; by simplify_eq.
  - simpl in Hw. destruct o as [[|es]|]; [done|..].
    + destruct (write_at rest l (Entries.get es n)); by simplify_eq.
    + destruct (write_at rest l None); by simplify_eq.
Qed.

Section Rollback.

Context `{OsPath}.
Variable read_zip : string → option (list member).

Variables temp_dir_path temp_zip blendluxcore_dir addon_dir backup_path : string.

#[local] Abbreviation clear := (keeps_clear addon_dir blendluxcore_dir backup_path).

(** Members that keep clear of the backup leave it as it is and put no
    regular file at the installation root, whether the extraction ends
    well or not. *)
Lemma extract_members_keeps_clear zf w r w' :
  Forall clear zf →
  extract_members addon_dir zf w = (r, w') →
  w_fs w' !! backup_path = w_fs w !! backup_path
  ∧ (no_file (w_fs w !! blendluxcore_dir) → no_file (w_fs w' !! blendluxcore_dir))
  ∧ w_releases w' = w_releases w.
Proof.
  intros Hzf. revert w. induction Hzf as [|m zf [Hbackup Hroot] _ IH]; intros w.
  - intros [= <- <-]. done.
  - destruct w as [fs releases log]. simpl extract_members.
    unfold extract_member. run_op.
    destruct (write_at (m_rest m) (m_written m) (fs !! path_join addon_dir (m_top m)))
      as [x|] eqn:Hwrite; run_op; [|by intros [= <- <-]].
    assert (no_file (fs !! blendluxcore_dir) →
            no_file (<[path_join addon_dir (m_top m) := x]> fs !! blendluxcore_dir))
      as Hkeep.
    { intros Hno. destruct (decide (path_join addon_dir (m_top m) = blendluxcore_dir))
        as [Heq|Hne]; [|by rewrite lookup_insert_ne].
      rewrite Heq, lookup_insert_eq. eapply write_at_no_file; [done|].
      destruct (m_rest m) as [|n rest] eqn:Hrest; [|by left]. right.
      unfold m_written. by rewrite Hroot. }
    destruct (m_fails m); run_op.
    + intros [= <- <-]. cbn [w_fs w_releases]. rewrite lookup_insert_ne by done. auto.
    + intros Hrun. apply IH in Hrun. cbn [w_fs w_releases] in Hrun.
      destruct Hrun as (-> & Hno & ->). rewrite lookup_insert_ne by done. auto.
Qed.

(** The same for the whole [with zipfile.ZipFile(...)] block. *)
Lemma unzip_keeps_clear w r w' :
  (∀ zf w0, ZipFile read_zip temp_dir_path temp_zip w = (Val zf, w0) → Forall clear zf) →
  unzip read_zip temp_dir_path temp_zip addon_dir w = (r, w') →
  w_fs w' !! backup_path = w_fs w !! backup_path
  ∧ (no_file (w_fs w !! blendluxcore_dir) → no_file (w_fs w' !! blendluxcore_dir))
  ∧ w_releases w' = w_releases w.
Proof.
  intros Hzf. unfold unzip, extractall. run_op.
  destruct (ZipFile read_zip temp_dir_path temp_zip w) as [[zf|e|] w0] eqn:Hopen;
    [|by intros [= <- <-]; revert Hopen; unfold ZipFile; run_op;
         repeat case_match; intros; simplify_eq..].
  specialize (Hzf zf w0 eq_refl).
  assert (w0 = w) as ->.
  { revert Hopen. unfold ZipFile. run_op. repeat case_match; intros; by simplify_eq. }
  destruct w as [fs releases log]. run_op.
  intros Hrun. by apply extract_members_keeps_clear in Hrun.
Qed.

(** The backup move, when the installation is there and the backup
    path is free. *)
Lemma backup_move w x :
  w_fs w !! blendluxcore_dir = Some x →
  w_fs w !! backup_path = None →
  shutil_move blendluxcore_dir backup_path w
  = (Val tt,
     {| w_fs := <[backup_path := x]> (delete blendluxcore_dir (w_fs w));
        w_releases := w_releases w;
        w_log := w_log w ++ [EvMove blendluxcore_dir backup_path] |}).
Proof.
  destruct w as [fs releases log]. cbn [w_fs w_releases w_log]. intros Hroot Hbackup.
  unfold shutil_move. run_op. rewrite Hroot.
  rewrite decide_False by congruence. by rewrite Hbackup.
Qed.

(** The handler, run where the backup holds [x] and no regular file is at
    the path of the installation root: it deletes what is at that path
    and moves the backup there. *)
Lemma restore_backup_run w x :
  blendluxcore_dir ≠ backup_path →
  w_fs w !! backup_path = Some x →
  no_file (w_fs w !! blendluxcore_dir) →
  ∃ events,
    restore_backup blendluxcore_dir backup_path w
    = (Val tt,
       {| w_fs := <[blendluxcore_dir := x]> (delete backup_path (w_fs w));
          w_releases := w_releases w;
          w_log := w_log w ++ events |})
    ∧ (is_Some (w_fs w !! blendluxcore_dir) → EvRmtree blendluxcore_dir ∈ events)
    ∧ last events = Some (EvMove backup_path blendluxcore_dir)
    ∧ reports events = [].
Proof.
  destruct w as [fs releases log]. cbn [w_fs w_releases w_log].
  intros Hne Hkept Hnofile.
  unfold restore_backup, os_path_exists. run_op.
  case_bool_decide as Hpartial.
  - destruct Hpartial as [partial Hpartial]. rewrite Hpartial in Hnofile.
    destruct partial as [|es]; [done|].
    unfold shutil_rmtree. run_op. rewrite Hpartial. run_op.
    unfold shutil_move. run_op.
    rewrite lookup_delete_ne, Hkept by done.
    rewrite decide_False by done. rewrite lookup_delete_eq. run_op.
    exists [EvRmtree blendluxcore_dir; EvMove backup_path blendluxcore_dir].
    split_and!; [|intros _; by apply elem_of_cons; left|done..].
    do 2 f_equal.
    + by rewrite (delete_delete _ backup_path blendluxcore_dir), insert_delete_eq.
    + by rewrite <-app_assoc.
  - apply eq_None_not_Some in Hpartial. run_op.
    unfold shutil_move. run_op. rewrite Hkept.
    rewrite decide_False by done. rewrite Hpartial. run_op.
    exists [EvMove backup_path blendluxcore_dir].
    split_and!; [done| |done..]. intros [? ?]. congruence.
Qed.

(** C1 (amended).  Take an archive whose members keep clear of the
    backup: none is extracted to the backup path or below it and none is
    a regular file at the path of the installation root.  When the
    extraction of such an archive fails after the backup move, the
    rollback handler ends without an exception, and when it has ended
    the backup has been moved back: the installation root holds exactly
    what it held before the update, nothing is left at the backup path,
    and what the failed extraction had written at the path of the
    installation root has been deleted. *)
Theorem failed_extraction_restores_backup w x e w_failed :
  w_fs w !! blendluxcore_dir = Some x →
  w_fs w !! backup_path = None →
  let w_moved := (shutil_move blendluxcore_dir backup_path w).2 in
  (∀ zf w0, ZipFile read_zip temp_dir_path temp_zip w_moved = (Val zf, w0) →
            Forall clear zf) →
  unzip read_zip temp_dir_path temp_zip addon_dir w_moved = (Raise e, w_failed) →
  ∃ w',
    swap_installation read_zip temp_dir_path temp_zip blendluxcore_dir addon_dir
      backup_path w = (Val tt, w')
    ∧ w_fs w' !! blendluxcore_dir = Some x
    ∧ w_fs w' !! backup_path = None
    ∧ w_fs w' = <[blendluxcore_dir := x]> (delete backup_path (w_fs w_failed))
    ∧ (is_Some (w_fs w_failed !! blendluxcore_dir) →
       EvRmtree blendluxcore_dir ∈ w_log w')
    ∧ last (w_log w') = Some (EvMove backup_path blendluxcore_dir)
    ∧ reports (w_log w') = reports (w_log w_failed).
Proof.
  intros Hroot Hbackup w_moved Hclear Hunzip.
  assert (blendluxcore_dir ≠ backup_path) as Hne by congruence.
  unfold swap_installation. run_op.
  subst w_moved. rewrite (backup_move w x Hroot Hbackup) in *. cbn [snd] in *.
  unfold extract_archive. run_op. rewrite Hunzip. run_op.
  apply unzip_keeps_clear in Hunzip as (Hkept & Hnofile & _); [|done].
  cbn [w_fs] in Hkept, Hnofile.
  rewrite lookup_insert_eq in Hkept.
  rewrite lookup_insert_ne, lookup_delete_eq in Hnofile by done.
  specialize (Hnofile I).
  destruct (restore_backup_run w_failed x Hne Hkept Hnofile)
    as (events & -> & Hrmtree & Hlast & Hreports).
  eexists. split; [reflexivity|]. cbn [w_fs w_log]. split_and!.
  - by rewrite lookup_insert_eq.
  - by rewrite lookup_insert_ne, lookup_delete_eq.
  - done.
  - intros Hpartial. apply elem_of_app; right. by apply Hrmtree.
  - destruct events as [|ev events _] using rev_ind; [done|].
    rewrite last_snoc in Hlast. by rewrite app_assoc, last_snoc.
  - unfold reports in *. by rewrite omap_app, Hreports, app_nil_r.
Qed.

End Rollback.

(** ** An extraction that fails, seen from [execute] *)

Section SilentRollback.

Context `{OsPath}.
Variable bl_info : BlInfo.
Variable urlopen : string → exc + (exc + string).
Variable read_zip : string → option (list member).
Variable file_realpath : string.
Variable mkdtemp : store → string.

(** The rollback within the whole of [execute]: when the extraction
    fails on the store the backup move leaves, whatever has been logged,
    [execute] ends with the installation root holding what it held
    before, with nothing at the backup path and with the temporary
    directory removed; and it ends as after a successful update. *)
Lemma execute_rolls_back selected_release requested_release w data x backup_path :
  let temp_dir_path := mkdtemp (w_fs w) in
  let blendluxcore_dir := path_dirname (path_dirname file_realpath) in
  let addon_dir := path_dirname blendluxcore_dir in
  let fs_downloaded := <[temp_dir_path := Dir [("default.zip", File data)]]> (w_fs w) in
  OrderedDict.get (w_releases w) selected_release = Some requested_release →
  version_string requested_release ≠ get_current_version bl_info →
  urlopen (download_url requested_release) = inr (inr data) →
  w_fs w !! temp_dir_path = None →
  w_fs w !! blendluxcore_dir = Some x →
  backup_loop fs_downloaded (S (size fs_downloaded)) (blendluxcore_dir +:+ "_backup")
    = Some backup_path →
  (∀ zf, read_zip data = Some zf →
         Forall (keeps_clear addon_dir blendluxcore_dir backup_path) zf) →
  (∀ releases log, ∃ e w_failed,
     unzip read_zip temp_dir_path "default.zip" addon_dir
       {| w_fs := <[backup_path := x]> (delete blendluxcore_dir fs_downloaded);
          w_releases := releases; w_log := log |}
     = (Raise e, w_failed)) →
  ∃ w',
    execute bl_info urlopen read_zip file_realpath mkdtemp selected_release w
      = (Val FINISHED, w')
    ∧ w_fs w' !! blendluxcore_dir = Some x
    ∧ w_fs w' !! backup_path = None
    ∧ w_fs w' !! temp_dir_path = None
    ∧ last (w_log w') = Some (EvReport "ERROR" "Restart Blender!").
Proof.
  destruct w as [fs releases log]. cbn [w_fs w_releases w_log].
  set (tmp := mkdtemp fs). set (root := path_dirname (path_dirname file_realpath)).
  set (addon := path_dirname root).
  set (fs_downloaded := <[tmp := Dir [("default.zip", File data)]]> fs).
  intros Hget Hversion Hurl Hfresh Hroot Hloop Hclear Hfail.
  assert (tmp ≠ root) as Htmp by congruence.
  destruct (backup_loop_total fs_downloaded (root +:+ "_backup")) as (n & Hn & Hfree & _).
  rewrite Hloop in Hn. injection Hn as Hn. rewrite <-Hn in Hfree. clear n Hn.
  assert (backup_path ≠ tmp) as Hbt.
  { intros Heq. unfold fs_downloaded in Hfree. by rewrite Heq, lookup_insert_eq in Hfree. }
  assert (backup_path ≠ root) as Hbr.
  { intros Heq. unfold fs_downloaded in Hfree.
    by rewrite Heq, lookup_insert_ne, Hroot in Hfree. }
  unfold execute. run_op. rewrite Hget. rewrite decide_False by done.
  unfold with_TemporaryDirectory, download_and_replace. run_op. fold tmp.
  rewrite (download_ok _ _ _ _ _ _ _ Hurl). run_op.
  unfold replace_installation, choose_backup_path. run_op.
  fold root. fold addon. fold fs_downloaded. rewrite Hloop. run_op.
  unfold swap_installation. run_op.
  rewrite (backup_move root backup_path _ x);
    [|by cbn [w_fs]; unfold fs_downloaded; rewrite lookup_insert_ne|done].
  run_op. unfold extract_archive. run_op.
  match goal with |- context [unzip _ _ _ _ ?w_moved] =>
    destruct (Hfail (w_releases w_moved) (w_log w_moved)) as (e & w_failed & Hunzip);
    cbn [w_releases w_log] in Hunzip
  end.
  rewrite Hunzip. run_op.
  apply (unzip_keeps_clear _ _ _ root addon backup_path) in Hunzip
    as (Hkept & Hnofile & _).
  2:{ intros zf w0. unfold ZipFile. run_op. unfold fs_downloaded.
      rewrite lookup_insert_ne, lookup_delete_ne, lookup_insert_eq by done.
      rewrite entries_get_head. destruct (read_zip data) as [zf'|] eqn:Hzip; [|done].
      run_op. intros [= <- _]. by apply Hclear. }
  cbn [w_fs] in Hkept, Hnofile.
  rewrite lookup_insert_eq in Hkept.
  rewrite lookup_insert_ne, lookup_delete_eq in Hnofile by done.
  specialize (Hnofile I).
  destruct (restore_backup_run root backup_path w_failed x (not_eq_sym Hbr) Hkept Hnofile)
    as (events & -> & _). run_op.
  eexists. split; [reflexivity|]. cbn [w_fs w_log]. split_and!.
  - by rewrite lookup_delete_ne, lookup_insert_eq.
  - rewrite lookup_delete_ne, lookup_insert_ne, lookup_delete_eq; done.
  - by rewrite lookup_delete_eq.
  - by rewrite last_snoc.
Qed.

(** C4.  The download succeeds but what was downloaded is no zip
    archive, so that the extraction fails with [BadZipFile]: [execute]
    moves the installation to the backup path and back again, and then
    goes on as after a successful update: it prints "Done. Changed to
    version ...", its only report is "Restart Blender!", and its result
    is [FINISHED].  Nothing tells the user that the extraction failed. *)
Theorem extraction_failure_is_not_reported
    selected_release requested_release w data x :
  OrderedDict.get (w_releases w) selected_release = Some requested_release →
  version_string requested_release ≠ get_current_version bl_info →
  urlopen (download_url requested_release) = inr (inr data) →
  read_zip data = None →
  w_fs w !! mkdtemp (w_fs w) = None →
  w_fs w !! path_dirname (path_dirname file_realpath) = Some x →
  ∃ events backup_path,
    execute bl_info urlopen read_zip file_realpath mkdtemp selected_release w
      = (Val FINISHED,
         {| w_fs := w_fs w; w_releases := w_releases w; w_log := w_log w ++ events |})
    ∧ reports events = [("ERROR", "Restart Blender!")]
    ∧ EvPrint ("Done. Changed to version " +:+ selected_release) ∈ events
    ∧ EvMove (path_dirname (path_dirname file_realpath)) backup_path ∈ events
    ∧ EvMove backup_path (path_dirname (path_dirname file_realpath)) ∈ events.
Proof.
  destruct w as [fs releases log]. cbn [w_fs w_releases w_log].
  intros Hget Hversion Hurl Hzip Hfresh Hroot.
  set (root := path_dirname (path_dirname file_realpath)) in *.
  set (tmp := mkdtemp fs) in *.
  assert (tmp ≠ root) as Htmp by congruence.
  unfold execute. run_op. rewrite Hget. rewrite decide_False by done.
  unfold with_TemporaryDirectory, download_and_replace. run_op. fold tmp.
  rewrite (download_ok _ _ _ _ _ _ _ Hurl). run_op.
  unfold replace_installation, choose_backup_path. run_op. fold root.
  destruct (backup_loop_total (<[tmp := Dir [("default.zip", File data)]]> fs)
              (root +:+ "_backup")) as (n & -> & Hfree & _).
  set (backup := (root +:+ "_backup") +:+ bs n) in *.
  assert (backup ≠ tmp) as Hbt.
  { intros Heq. by rewrite Heq, lookup_insert_eq in Hfree. }
  assert (backup ≠ root) as Hbr.
  { intros Heq. by rewrite Heq, lookup_insert_ne, Hroot in Hfree. }
  unfold swap_installation. run_op.
  rewrite (backup_move root backup _ x);
    [|by cbn [w_fs]; rewrite lookup_insert_ne|done].
  run_op.
  unfold extract_archive, unzip, ZipFile. run_op.
  rewrite lookup_insert_ne, lookup_delete_ne, lookup_insert_eq by done.
  rewrite entries_get_head, Hzip. run_op.
  unfold restore_backup, os_path_exists. run_op.
  rewrite lookup_insert_ne, lookup_delete_eq by done.
  rewrite bool_decide_eq_false_2 by (by intros [? ?]).
  run_op. unfold shutil_move. run_op.
  rewrite lookup_insert_eq. rewrite decide_False by done.
  rewrite lookup_insert_ne, lookup_delete_eq by done. run_op.
  eexists _, backup. split_and!.
  - do 2 f_equal.
    + rewrite delete_insert_id by (by rewrite lookup_delete_ne).
      rewrite insert_delete_eq, insert_id by (by rewrite lookup_insert_ne).
      by apply delete_insert_id.
    + rewrite <-!app_assoc. reflexivity.
  - reflexivity.
  - apply list_elem_of_In. simpl. tauto.
  - apply list_elem_of_In. simpl. tauto.
  - apply list_elem_of_In. simpl. tauto.
Qed.

End SilentRollback.

(** ** The sample installation *)

(** The installed version is selected. *)
Lemma installed_version_is_refused_witness :
  @execute posixpath.os_path Sample.bl_info Sample.urlopen_up Sample.read_damaged
    Sample.file_realpath Sample.mkdtemp "v2.0beta2" Sample.w
  = (Val CANCELLED,
     {| w_fs := Sample.fs; w_releases := Sample.catalog;
        w_log := [EvReport "ERROR" "This is the currently installed version"] |}).
Proof.
  exact (proj1 (@installed_version_is_refused posixpath.os_path Sample.bl_info
    Sample.urlopen_up Sample.read_damaged Sample.file_realpath Sample.mkdtemp
    "v2.0beta2" (mkRelease "v2.0beta2" true "https://host/v2.0beta2/linux64-opencl.zip")
    Sample.w eq_refl eq_refl)).
Defined.

(** The network is down. *)
Lemma download_failure_leaves_installation_witness :
  ∃ events,
    @execute posixpath.os_path Sample.bl_info Sample.urlopen_down Sample.read_damaged
      Sample.file_realpath Sample.mkdtemp "v2.1" Sample.w
    = (Val CANCELLED,
       {| w_fs := Sample.fs; w_releases := Sample.catalog; w_log := events |})
    ∧ reports events = [("ERROR", "Could not download: <urlopen error timed out>")].
Proof.
  destruct (@download_failure_leaves_installation posixpath.os_path Sample.bl_info
    Sample.urlopen_down Sample.read_damaged Sample.file_realpath Sample.mkdtemp
    "v2.1" (mkRelease "v2.1" false "https://host/v2.1-hotfix/linux64-opencl.zip")
    Sample.w (URLError "<urlopen error timed out>") eq_refl)
    as (events & Hrun & Hreports & _).
  - discriminate.
  - left. reflexivity.
  - reflexivity.
  - exists events. split; [exact Hrun|exact Hreports].
Defined.

(** The archive is damaged: the extraction writes [__init__.py] of the new
    version and fails at the next member. *)
Lemma failed_extraction_restores_backup_witness :
  ∃ w',
    @swap_installation posixpath.os_path Sample.read_damaged Sample.temp_dir_path
      "default.zip" Sample.blendluxcore_dir Sample.addon_dir Sample.backup_path
      Sample.w_downloaded = (Val tt, w')
    ∧ w_fs w' !! Sample.blendluxcore_dir = Some Sample.installation
    ∧ w_fs w' !! Sample.backup_path = None
    ∧ EvRmtree Sample.blendluxcore_dir ∈ w_log w'.
Proof.
  edestruct (@failed_extraction_restores_backup posixpath.os_path Sample.read_damaged
    Sample.temp_dir_path "default.zip" Sample.blendluxcore_dir Sample.addon_dir
    Sample.backup_path Sample.w_downloaded Sample.installation)
    as (w' & Hrun & Hroot & Hbackup & _ & Hrmtree & _).
  - reflexivity.
  - reflexivity.
  - intros zf w0 Hopen. vm_compute in Hopen. injection Hopen as <- _.
    repeat (apply Forall_cons_2); [..|apply Forall_nil_2];
      (split; [vm_compute; discriminate|intros _ Hrest; vm_compute in Hrest; discriminate]).
  - vm_compute. reflexivity.
  - exists w'. split_and!; [exact Hrun|exact Hroot|exact Hbackup|].
    apply Hrmtree. vm_compute. eauto.
Defined.

(** Without the condition on the archive the rollback does not restore
    the installation.  With the archive [Sample.read_astray] the extraction fails after the backup
    move and the handler ends well, but the installation root then holds
    a file it did not hold before the update.  With the archive
    [Sample.read_misplaced] the handler itself ends with an exception
    and the old installation stays at the backup path. *)
Lemma failed_extraction_restores_backup_counterexample :
  ((@unzip posixpath.os_path Sample.read_astray Sample.temp_dir_path "default.zip"
      Sample.addon_dir
      (@shutil_move posixpath.os_path Sample.blendluxcore_dir Sample.backup_path
         Sample.w_downloaded).2).1
   = Raise (OSError "/addons/README")
   ∧ (@swap_installation posixpath.os_path Sample.read_astray Sample.temp_dir_path
        "default.zip" Sample.blendluxcore_dir Sample.addon_dir Sample.backup_path
        Sample.w_downloaded).1
     = Val tt
   ∧ w_fs Sample.w_downloaded !! Sample.blendluxcore_dir = Some Sample.installation
   ∧ w_fs (@swap_installation posixpath.os_path Sample.read_astray Sample.temp_dir_path
             "default.zip" Sample.blendluxcore_dir Sample.addon_dir Sample.backup_path
             Sample.w_downloaded).2 !! Sample.blendluxcore_dir
     = Some (Dir [("__init__.py", File "bl_info = 2.0 beta2");
                  ("operators", Dir [("update.py", File "class LUXCORE_OT_change_version")]);
                  ("junk.txt", File "junk")]))
  ∧ ((@unzip posixpath.os_path Sample.read_misplaced Sample.temp_dir_path "default.zip"
        Sample.addon_dir
        (@shutil_move posixpath.os_path Sample.blendluxcore_dir Sample.backup_path
           Sample.w_downloaded).2).1
     = Raise BadZipFile
     ∧ (@swap_installation posixpath.os_path Sample.read_misplaced Sample.temp_dir_path
          "default.zip" Sample.blendluxcore_dir Sample.addon_dir Sample.backup_path
          Sample.w_downloaded).1
       = Raise (NotADirectoryError Sample.blendluxcore_dir)
     ∧ w_fs (@swap_installation posixpath.os_path Sample.read_misplaced
               Sample.temp_dir_path "default.zip" Sample.blendluxcore_dir Sample.addon_dir
               Sample.backup_path Sample.w_downloaded).2 !! Sample.blendluxcore_dir
       = Some (File "text")
     ∧ w_fs (@swap_installation posixpath.os_path Sample.read_misplaced
               Sample.temp_dir_path "default.zip" Sample.blendluxcore_dir Sample.addon_dir
               Sample.backup_path Sample.w_downloaded).2 !! Sample.backup_path
       = Some Sample.installation).
Proof. split; split_and!; vm_compute; reflexivity. Qed.

(** Not every network error is reported.  The connection is reset
    while the body is read, which is no [URLError]: [execute] ends with
    the exception, it is not cancelled and it reports nothing. *)
Lemma download_failure_leaves_installation_counterexample :
  (@execute posixpath.os_path Sample.bl_info Sample.urlopen_reset Sample.read_good
     Sample.file_realpath Sample.mkdtemp "v2.1" Sample.w).1
  = Raise (OtherException "ConnectionResetError")
  ∧ reports (w_log (@execute posixpath.os_path Sample.bl_info Sample.urlopen_reset
                      Sample.read_good Sample.file_realpath Sample.mkdtemp "v2.1"
                      Sample.w).2)
    = [].
Proof. split; vm_compute; reflexivity. Qed.

(** What was downloaded is an error page. *)
Lemma extraction_failure_is_not_reported_witness :
  ∃ events,
    @execute posixpath.os_path Sample.bl_info Sample.urlopen_up Sample.read_html
      Sample.file_realpath Sample.mkdtemp "v2.1" Sample.w
    = (Val FINISHED,
       {| w_fs := Sample.fs; w_releases := Sample.catalog; w_log := events |})
    ∧ reports events = [("ERROR", "Restart Blender!")]
    ∧ EvPrint "Done. Changed to version v2.1" ∈ events.
Proof.
  destruct (@extraction_failure_is_not_reported posixpath.os_path Sample.bl_info
    Sample.urlopen_up Sample.read_html Sample.file_realpath Sample.mkdtemp
    "v2.1" (mkRelease "v2.1" false "https://host/v2.1-hotfix/linux64-opencl.zip")
    Sample.w "PK" Sample.installation eq_refl)
    as (events & backup & Hrun & Hreports & Hdone & _).
  - discriminate.
  - reflexivity.
  - reflexivity.
  - reflexivity.
  - reflexivity.
  - exists events. split_and!; [exact Hrun|exact Hreports|exact Hdone].
Defined.

(** The damaged archive, seen from [execute]: the store ends as it was,
    and the run ends as a successful one does. *)
Example damaged_archive_run :
  let run := @execute posixpath.os_path Sample.bl_info Sample.urlopen_up
               Sample.read_damaged Sample.file_realpath Sample.mkdtemp "v2.1" Sample.w in
  run.1 = Val FINISHED
  ∧ w_fs run.2 = Sample.fs
  ∧ reports (w_log run.2) = [("ERROR", "Restart Blender!")].
Proof. cbv zeta. split_and!; vm_compute; reflexivity. Qed.

(** ** Termination *)

Create HintDb ends discriminated.

Lemma ends_ret {A} (a : A) : ends (ret a).
Proof. by intros w. Qed.

Lemma ends_raise {A} e : ends (@raise A e).
Proof. by intros w. Qed.

Lemma ends_bind {A B} (c : M A) (k : A → M B) :
  ends c → (∀ a, ends (k a)) → ends (bind c k).
Proof.
  intros Hc Hk w. unfold bind. specialize (Hc w).
  destruct (c w) as [[a|e|] w']; [apply Hk|done..].
Qed.

Lemma ends_attempt {A} sel (c : M A) : ends c → ends (attempt sel c).
Proof.
  intros Hc w. unfold attempt. specialize (Hc w).
  destruct (c w) as [[a|e|] w']; [done| |done]. by destruct (sel e).
Qed.

Lemma ends_call ev : ends (call ev).
Proof. by intros w. Qed.

Lemma ends_get_fs : ends get_fs.
Proof. by intros w. Qed.

Lemma ends_modify_fs f : ends (modify_fs f).
Proof. by intros w. Qed.

Lemma ends_get_releases : ends get_releases.
Proof. by intros w. Qed.

Lemma ends_modify_releases f : ends (modify_releases f).
Proof. by intros w. Qed.

Lemma ends_choose_backup_path blendluxcore_dir : ends (choose_backup_path blendluxcore_dir).
Proof.
  intros w. unfold choose_backup_path.
  destruct (backup_loop_total (w_fs w) (blendluxcore_dir +:+ "_backup")) as (n & -> & _).
  done.
Qed.

Lemma ends_with_TemporaryDirectory {A} mkdtemp (body : string → M A) :
  (∀ p, ends (body p)) → ends (with_TemporaryDirectory mkdtemp body).
Proof.
  intros Hbody w. unfold with_TemporaryDirectory.
  match goal with |- context [body ?p ?w1] => specialize (Hbody p w1);
    destruct (body p w1) as [[a|e|] w2] end; done.
Qed.

#[export] Hint Resolve ends_ret ends_raise ends_call ends_get_fs ends_modify_fs
  ends_get_releases ends_modify_releases ends_choose_backup_path : ends.

(** Splits a piece of the operator into its binds and branches. *)
Ltac ends_step :=
  first
    [ apply ends_bind; [|intros ?]
    | apply ends_attempt
    | apply ends_with_TemporaryDirectory; intros ?
    | progress auto with ends
    | match goal with
      | |- ends (match ?x with _ => _ end) => destruct x
      | |- ends (if ?b then _ else _) => destruct b
      end ].

Section Termination.

Context `{OsPath}.
Variable bl_info : BlInfo.
Variable requests_get : string → http_answer.
Variable platform_system : string.
Variable LUXRAYS_DISABLE_OPENCL : bool.
Variable urlopen : string → exc + (exc + string).
Variable read_zip : string → option (list member).
Variable file_realpath : string.
Variable mkdtemp : store → string.

Lemma ends_extract_members dir zf : ends (extract_members dir zf).
Proof.
  induction zf as [|m zf IH]; simpl; [auto with ends|].
  unfold extract_member, print, report. repeat ends_step.
Qed.

(** [invoke] has no loop but those over the feed. *)
Lemma invoke_ends : ends (invoke requests_get platform_system LUXRAYS_DISABLE_OPENCL).
Proof.
  unfold invoke, http_get, json_loads, print, report. repeat ends_step.
Qed.

(** [execute] ends: its [while] loop finds a free name, and the
    extraction goes once through the members of the archive. *)
Lemma execute_ends selected_release :
  ends (execute bl_info urlopen read_zip file_realpath mkdtemp selected_release).
Proof.
  unfold execute, download_and_replace, download, write_file, replace_installation,
    swap_installation, extract_archive, unzip, ZipFile, extractall, restore_backup,
    os_path_exists, shutil_move, shutil_rmtree, print, report.
  repeat first [apply ends_extract_members | ends_step].
Qed.

(** The temporary directory is gone when the [with] block is left, with a
    value or with an exception. *)
Lemma temporary_directory_is_removed {A} (body : string → M A) w :
  (with_TemporaryDirectory mkdtemp body w).1 ≠ Diverge →
  w_fs (with_TemporaryDirectory mkdtemp body w).2 !! mkdtemp (w_fs w) = None.
Proof.
  unfold with_TemporaryDirectory.
  match goal with |- context [body ?p ?w1] => destruct (body p w1) as [[a|e|] w2] end;
    cbn [fst snd]; intros Hends; [|..|done];
    unfold with_fs; cbn [w_fs]; apply lookup_delete_eq.
Qed.

End Termination.

(** The damaged archive once more, through the lemma on [execute]. *)
Example damaged_archive_rolls_back :
  ∃ w',
    @execute posixpath.os_path Sample.bl_info Sample.urlopen_up Sample.read_damaged
      Sample.file_realpath Sample.mkdtemp "v2.1" Sample.w = (Val FINISHED, w')
    ∧ w_fs w' !! Sample.blendluxcore_dir = Some Sample.installation
    ∧ w_fs w' !! Sample.backup_path = None
    ∧ w_fs w' !! Sample.temp_dir_path = None.
Proof.
  destruct (@execute_rolls_back posixpath.os_path Sample.bl_info Sample.urlopen_up
    Sample.read_damaged Sample.file_realpath Sample.mkdtemp "v2.1"
    (mkRelease "v2.1" false "https://host/v2.1-hotfix/linux64-opencl.zip")
    Sample.w "PK" Sample.installation Sample.backup_path eq_refl)
    as (w' & Hrun & Hroot & Hbackup & Htmp & _).
  - discriminate.
  - reflexivity.
  - vm_compute. reflexivity.
  - vm_compute. reflexivity.
  - vm_compute. reflexivity.
  - intros zf [= <-].
    repeat (apply Forall_cons_2); [..|apply Forall_nil_2];
      (split; [vm_compute; discriminate|intros _ Hrest; vm_compute in Hrest; discriminate]).
  - intros releases log. eexists _, _. vm_compute. reflexivity.
  - exists w'. split_and!; [exact Hrun|exact Hroot|exact Hbackup|exact Htmp].
Qed.

(** * Further properties *)

(** ** [invoke] *)

Section InvokeFacts.

Variable requests_get : string → http_answer.
Variable platform_system : string.
Variable LUXRAYS_DISABLE_OPENCL : bool.

#[local] Abbreviation invoke' := (invoke requests_get platform_system LUXRAYS_DISABLE_OPENCL).

(** X1.  Whatever the feed answers and whatever the system is, [invoke]
    leaves the file system as it is, asks the network once (the one GET
    of the release feed) and does nothing else to the outside but
    report: no report when it opens the dialog or raises, exactly one
    [ERROR] report when it is cancelled. *)
Theorem invoke_fetches_once_and_only_reports w :
  w_fs (invoke' w).2 = w_fs w
  ∧ ∃ told,
      w_log (invoke' w).2 = w_log w ++ EvGet GITHUB_API_RELEASE_URL :: told
      ∧ match (invoke' w).1 with
        | Val CANCELLED => ∃ msg, told = [EvReport "ERROR" msg]
        | _ => told = []
        end.
Proof.
  destruct w as [fs releases log]. unfold invoke, http_get, json_loads. run_op.
  destruct (requests_get GITHUB_API_RELEASE_URL) as [|[] [response|]];
    run_op; cbn [negb]; run_op;
    try (split; [done|eexists; split; [by rewrite <-app_assoc|by eexists]]).
  - destruct (OrderedDict.get system_mapping platform_system); run_op.
    + split; [done|]. by exists [].
    + split; [done|]. eexists. split; [by rewrite <-app_assoc|by eexists].
  - split; [done|]. by exists [].
Qed.

(** X2.  The catalog [invoke] leaves does not depend on the catalog it
    finds: it is built anew from the feed, and it is empty whenever
    [invoke] is cancelled, whatever was in it before.  (The three
    [return {"CANCELLED"}] come after [releases.clear()] and before the
    loop over the feed.) *)
Theorem invoke_rebuilds_catalog w w0 :
  w_releases (invoke' w).2 = w_releases (invoke' w0).2
  ∧ ((invoke' w).1 = Val CANCELLED → w_releases (invoke' w).2 = []).
Proof.
  destruct w as [fs releases log], w0 as [fs0 releases0 log0].
  unfold invoke, http_get, json_loads. run_op.
  destruct (requests_get GITHUB_API_RELEASE_URL) as [|[] [response|]];
    run_op; cbn [negb]; run_op; try done.
  destruct (OrderedDict.get system_mapping platform_system); run_op; done.
Qed.

(** X3.  Only the systems "Linux" and "Windows" are known.  On any other
    system a feed that was fetched and read is thrown away: [invoke] is
    cancelled with the report "Unsupported system: " followed by the name
    of the system, and the catalog is empty. *)
Theorem other_systems_are_refused w response :
  requests_get GITHUB_API_RELEASE_URL = Response true (Some response) →
  platform_system ≠ "Linux" →
  platform_system ≠ "Windows" →
  (invoke' w).1 = Val CANCELLED
  ∧ w_releases (invoke' w).2 = []
  ∧ reports (w_log (invoke' w).2)
    = reports (w_log w) ++ [("ERROR", "Unsupported system: " +:+ platform_system)].
Proof.
  intros Hget Hlinux Hwindows.
  rewrite (invoke_unsupported_system _ _ _ _ response Hget).
  - cbn [fst snd w_releases w_log]. split_and!; [done..|].
    unfold reports. rewrite !omap_app. cbn [omap list_omap]. by rewrite app_nil_r.
  - simpl. by rewrite !decide_False.
Qed.

End InvokeFacts.

Lemma other_systems_are_refused_witness :
  (invoke Sample.requests_get "Darwin" false Sample.w).1 = Val CANCELLED
  ∧ w_releases (invoke Sample.requests_get "Darwin" false Sample.w).2 = []
  ∧ reports (w_log (invoke Sample.requests_get "Darwin" false Sample.w).2)
    = [("ERROR", "Unsupported system: Darwin")].
Proof.
  refine (other_systems_are_refused Sample.requests_get "Darwin" false Sample.w
    Sample.feed eq_refl _ _); discriminate.
Defined.

(** ** The catalog and the selector *)

Lemma od_set_new {V} (d : OrderedDict.t V) k v :
  k ∉ OrderedDict.keys d → OrderedDict.set d k v = d ++ [(k, v)].
Proof.
  unfold OrderedDict.keys. induction d as [|[k0 v0] d IH]; [done|].
  rewrite fmap_cons, not_elem_of_cons. intros [Hne Hk]. simpl.
  rewrite decide_False by done. by rewrite IH.
Qed.

Lemma fill_releases_keyed cs co rs d :
  keyed_by_version d → keyed_by_version (fill_releases cs co rs d).
Proof.
  unfold keyed_by_version. rewrite !Forall_forall. intros Hd [k e] Hin.
  apply fill_releases_elem_of in Hin as [Hin|(r & _ & _ & -> & _)]; [|done].
  by apply Hd in Hin.
Qed.

(** The catalog [invoke] leaves is empty or filled from a feed. *)
Lemma invoke_catalog_cases requests_get platform_system LUXRAYS_DISABLE_OPENCL w :
  w_releases (invoke requests_get platform_system LUXRAYS_DISABLE_OPENCL w).2 = []
  ∨ ∃ response current_system,
      requests_get GITHUB_API_RELEASE_URL = Response true (Some response)
      ∧ OrderedDict.get system_mapping platform_system = Some current_system
      ∧ w_releases (invoke requests_get platform_system LUXRAYS_DISABLE_OPENCL w).2
        = fill_releases current_system (negb LUXRAYS_DISABLE_OPENCL) response [].
Proof.
  destruct (requests_get GITHUB_API_RELEASE_URL) as [|[] [response|]] eqn:Hget.
  - left. by rewrite invoke_no_connection.
  - destruct (OrderedDict.get system_mapping platform_system) as [cs|] eqn:Hsys.
    + right. exists response, cs. split_and!; [done..|].
      by rewrite (invoke_success _ _ _ _ _ _ Hget Hsys).
    + left. by rewrite (invoke_unsupported_system _ _ _ _ _ Hget Hsys).
  - left. destruct w as [fs releases log]. unfold invoke, http_get, json_loads.
    run_op. by rewrite Hget.
  - left. by rewrite (invoke_response_not_ok _ _ _ _ _ Hget).
  - left. by rewrite (invoke_response_not_ok _ _ _ _ _ Hget).
Qed.

Lemma annotation_text_installed a : annotation_text a = " (installed)" ↔ a = Installed.
Proof. by destruct a. Qed.

Lemma items_identifiers bl_info (releases : OrderedDict.t Release) :
  keyed_by_version releases →
  item_identifier <$> release_items_callback bl_info releases = OrderedDict.keys releases.
Proof.
  intros Hkeyed. unfold release_items_callback. rewrite items_loop_spec. simpl.
  rewrite fmap_imap.
  rewrite (imap_ext _ (const version_string)) by done.
  rewrite imap_const. unfold OrderedDict.values, OrderedDict.keys.
  induction Hkeyed as [|[k e] d Hk _ IH]; [done|].
  cbn [map fmap list_fmap fst snd] in *. by rewrite IH, Hk.
Qed.

(** X4.  The versions the selector offers after [invoke] are pairwise
    distinct: the catalog has every key once, every record is kept under
    its own version string, the identifiers of the items are the keys in
    their order, and at most one item is marked as installed. *)
Theorem offered_versions_are_distinct
    bl_info requests_get platform_system LUXRAYS_DISABLE_OPENCL w :
  let catalog :=
    w_releases (invoke requests_get platform_system LUXRAYS_DISABLE_OPENCL w).2 in
  let items := release_items_callback bl_info catalog in
  NoDup (OrderedDict.keys catalog)
  ∧ keyed_by_version catalog
  ∧ item_identifier <$> items = OrderedDict.keys catalog
  ∧ (∀ i j a b, items !! i = Some a → items !! j = Some b →
       item_description a = " (installed)" → item_description b = " (installed)" →
       i = j).
Proof.
  intros catalog items.
  assert (NoDup (OrderedDict.keys catalog) ∧ keyed_by_version catalog) as [Hnodup Hkeyed].
  { unfold catalog.
    destruct (invoke_catalog_cases requests_get platform_system LUXRAYS_DISABLE_OPENCL w)
      as [->|(response & cs & _ & _ & ->)].
    - split; constructor.
    - split; [apply fill_releases_NoDup; constructor|apply fill_releases_keyed; constructor]. }
  pose proof (items_identifiers bl_info catalog Hkeyed) as Hids. fold items in Hids.
  split_and!; [done..|].
  intros i j a b Hi Hj Ha Hb.
  assert (∀ n it, items !! n = Some it → item_description it = " (installed)" →
            (item_identifier <$> items) !! n = Some (get_current_version bl_info)) as Hcur.
  { intros n it Hn Hit. rewrite list_lookup_fmap, Hn. simpl. f_equal.
    unfold items, release_items_callback in Hn. rewrite items_loop_spec in Hn.
    simpl in Hn. apply list_lookup_imap_Some in Hn as (e & _ & ->).
    unfold selectable, item_description, item_identifier in *. simpl in *.
    apply annotation_text_installed in Hit. unfold annotation_of in Hit.
    by repeat case_match. }
  rewrite Hids in Hcur. eapply NoDup_lookup; [exact Hnodup|by eapply Hcur..].
Qed.

Section FeedOrder.

Variable current_system : string.
Variable current_is_opencl : bool.

Lemma fill_releases_appends rs (d : OrderedDict.t Release) :
  NoDup (OrderedDict.keys d
         ++ (OrderedDict.keys
               (record_of current_system current_is_opencl
                <$> filter (has_download current_system current_is_opencl) rs))) →
  fill_releases current_system current_is_opencl rs d
  = d ++ (record_of current_system current_is_opencl
          <$> filter (has_download current_system current_is_opencl) rs).
Proof.
  revert d. induction rs as [|r rs IH]; intros d Hnodup.
  - by rewrite app_nil_r.
  - cbn [fill_releases]. rewrite filter_cons in Hnodup |- *.
    destruct (decide (has_download current_system current_is_opencl r)) as [Hurl|Hurl].
    + pose proof Hurl as Htruthy. unfold has_download in Htruthy. rewrite Htruthy.
      rewrite fmap_cons in Hnodup |- *.
      unfold OrderedDict.keys in Hnodup. rewrite fmap_cons in Hnodup.
      assert (version_string (make_entry current_system current_is_opencl r)
              ∉ OrderedDict.keys d) as Hnew.
      { apply NoDup_app in Hnodup as (_ & Hdisj & _). intros Hin.
        apply (Hdisj _ Hin). by apply elem_of_cons; left. }
      rewrite (od_set_new _ _ _ Hnew), IH.
      * by rewrite <-app_assoc.
      * unfold OrderedDict.keys. rewrite fmap_app, <-app_assoc. exact Hnodup.
    + pose proof Hurl as Htruthy. unfold has_download in Htruthy.
      apply not_true_is_false in Htruthy. rewrite Htruthy. by apply IH.
Qed.

End FeedOrder.

(** X5.  When the releases of the feed that have a download URL have
    pairwise distinct version strings, the catalog [invoke] leaves is
    exactly these releases, each under its version string, in the order
    of the feed: nothing is sorted and nothing else is kept. *)
Theorem catalog_follows_feed_order
    requests_get platform_system LUXRAYS_DISABLE_OPENCL w response current_system :
  requests_get GITHUB_API_RELEASE_URL = Response true (Some response) →
  OrderedDict.get system_mapping platform_system = Some current_system →
  let current_is_opencl := negb LUXRAYS_DISABLE_OPENCL in
  let kept := filter (has_download current_system current_is_opencl) response in
  NoDup (OrderedDict.keys (record_of current_system current_is_opencl <$> kept)) →
  w_releases (invoke requests_get platform_system LUXRAYS_DISABLE_OPENCL w).2
  = (record_of current_system current_is_opencl <$> kept).
Proof.
  intros Hget Hsys current_is_opencl kept Hnodup.
  rewrite (invoke_success _ _ _ _ _ _ Hget Hsys). cbn [snd w_releases].
  by rewrite fill_releases_appends.
Qed.

Lemma catalog_follows_feed_order_witness :
  w_releases (invoke Sample.requests_get "Windows" false Sample.w).2
  = [("v2.1", mkRelease "v2.1" false "https://host/v2.1/win64-opencl.zip")].
Proof.
  refine (catalog_follows_feed_order Sample.requests_get "Windows" false Sample.w
    Sample.feed "win64" eq_refl eq_refl _).
  vm_compute. apply NoDup_singleton.
Defined.

(** ** What [execute] logs *)

Section Only.

Variable P : event → Prop.

Lemma only_ret {A} (a : A) : only P (ret a).
Proof. intros w. split; [done|]. exists []. by rewrite app_nil_r. Qed.

Lemma only_raise {A} e : only P (@raise A e).
Proof. intros w. split; [done|]. exists []. by rewrite app_nil_r. Qed.

Lemma only_get_fs : only P get_fs.
Proof. intros w. split; [done|]. exists []. by rewrite app_nil_r. Qed.

Lemma only_get_releases : only P get_releases.
Proof. intros w. split; [done|]. exists []. by rewrite app_nil_r. Qed.

Lemma only_modify_fs f : only P (modify_fs f).
Proof. intros w. split; [done|]. exists []. by rewrite app_nil_r. Qed.

Lemma only_call ev : P ev → only P (call ev).
Proof. intros Hev w. split; [done|]. exists [ev]. split; [done|]. by constructor. Qed.

Lemma only_bind {A B} (c : M A) (k : A → M B) :
  only P c → (∀ a, only P (k a)) → only P (bind c k).
Proof.
  intros Hc Hk w. unfold bind. destruct (Hc w) as (Hrel & events & Hlog & Hevents).
  destruct (c w) as [[a|e|] w1]; cbn [snd] in *; [|by eauto..].
  destruct (Hk a w1) as (Hrel' & events' & Hlog' & Hevents').
  split; [congruence|]. exists (events ++ events').
  rewrite Hlog', Hlog, app_assoc. split; [done|]. by apply Forall_app.
Qed.

Lemma only_attempt {A} sel (c : M A) : only P c → only P (attempt sel c).
Proof.
  intros Hc w. unfold attempt. specialize (Hc w).
  destruct (c w) as [[a|e|] w1]; [done| |done]. by destruct (sel e).
Qed.

Lemma only_choose_backup_path blendluxcore_dir : only P (choose_backup_path blendluxcore_dir).
Proof.
  intros w. unfold choose_backup_path.
  destruct (backup_loop _ _ _); (split; [done|]; exists []; by rewrite app_nil_r).
Qed.

Lemma only_with_TemporaryDirectory {A} mkdtemp (body : string → M A) :
  (∀ p, P (EvMkdtemp p)) → (∀ p, P (EvCleanup p)) →
  (∀ p, only P (body p)) → only P (with_TemporaryDirectory mkdtemp body).
Proof.
  intros Hmk Hclean Hbody w. unfold with_TemporaryDirectory.
  match goal with |- context [body ?p ?w1] =>
    destruct (Hbody p w1) as (Hrel & events & Hlog & Hevents);
    destruct (body p w1) as [[a|e|] w2]
  end; cbn [snd w_releases w_log with_fs emit] in *.
  - split; [done|]. exists ((EvMkdtemp (mkdtemp (w_fs w)) :: events)
                            ++ [EvCleanup (mkdtemp (w_fs w))]).
    rewrite Hlog, <-!app_assoc. split; [done|].
    apply Forall_app. split; [by constructor|]. by constructor.
  - split; [done|]. exists ((EvMkdtemp (mkdtemp (w_fs w)) :: events)
                            ++ [EvCleanup (mkdtemp (w_fs w))]).
    rewrite Hlog, <-!app_assoc. split; [done|].
    apply Forall_app. split; [by constructor|]. by constructor.
  - split; [done|]. exists (EvMkdtemp (mkdtemp (w_fs w)) :: events).
    rewrite Hlog, <-!app_assoc. split; [done|]. by constructor.
Qed.

End Only.

Lemma quiet_reports events :
  Forall (λ ev, is_report ev = false) events → reports events = [].
Proof.
  induction 1 as [|ev events Hev _ IH]; [done|].
  unfold reports in *. cbn [omap list_omap]. by destruct ev.
Qed.

(** Splits a piece of the operator into its binds and branches. *)
Ltac only_step :=
  first
    [ apply only_bind; [|intros ?]
    | apply only_attempt
    | apply only_ret
    | apply only_raise
    | apply only_get_fs
    | apply only_get_releases
    | apply only_modify_fs
    | apply only_choose_backup_path
    | apply only_call; reflexivity
    | match goal with
      | |- only _ (match ?x with _ => _ end) => destruct x
      | |- only _ (if ?b then _ else _) => destruct b
      end ].

Section Logged.

Context `{OsPath}.
Variable urlopen : string → exc + (exc + string).
Variable read_zip : string → option (list member).
Variable file_realpath : string.

Lemma quiet_extract_members dir zf : quiet (extract_members dir zf).
Proof.
  unfold quiet. induction zf as [|m zf IH]; simpl; [apply only_ret|].
  unfold extract_member. repeat first [exact IH | only_step].
Qed.

(** Moving, deleting, unpacking: lines 167-194 report nothing. *)
Lemma quiet_replace_installation temp_dir_path temp_zip :
  quiet (replace_installation read_zip file_realpath temp_dir_path temp_zip).
Proof.
  unfold quiet, replace_installation, swap_installation, extract_archive, unzip,
    ZipFile, extractall, restore_backup, os_path_exists, shutil_move, shutil_rmtree,
    print.
  repeat first [apply quiet_extract_members | only_step].
Qed.

Lemma quiet_download url dir file : quiet (download urlopen url dir file).
Proof. unfold quiet, download, write_file. repeat only_step. Qed.

End Logged.

Lemma reports_app events1 events2 :
  reports (events1 ++ events2) = reports events1 ++ reports events2.
Proof. unfold reports. apply omap_app. Qed.

(** ** The ways [execute] ends *)

Section ExecuteFacts.

Context `{OsPath}.
Variable bl_info : BlInfo.
Variable urlopen : string → exc + (exc + string).
Variable read_zip : string → option (list member).
Variable file_realpath : string.
Variable mkdtemp : store → string.

#[local] Abbreviation execute' :=
  (execute bl_info urlopen read_zip file_realpath mkdtemp).

Lemma ends_replace_installation temp_dir_path temp_zip :
  ends (replace_installation read_zip file_realpath temp_dir_path temp_zip).
Proof.
  unfold replace_installation, swap_installation, extract_archive, unzip, ZipFile,
    extractall, restore_backup, os_path_exists, shutil_move, shutil_rmtree, print.
  repeat first [apply ends_extract_members | ends_step].
Qed.

(** The download fails, at [urlopen] or in [read]: a [URLError] is
    reported, any other exception goes on; either way the store is as
    before, but for the path of the temporary directory. *)
Lemma execute_download_fails selected_release requested_release w e :
  OrderedDict.get (w_releases w) selected_release = Some requested_release →
  version_string requested_release ≠ get_current_version bl_info →
  urlopen (download_url requested_release) = inl e
  ∨ urlopen (download_url requested_release) = inr (inl e) →
  ∃ events,
    execute' selected_release w
    = ((if is_URLError e then Val CANCELLED else Raise e),
       {| w_fs := delete (mkdtemp (w_fs w)) (w_fs w);
          w_releases := w_releases w; w_log := w_log w ++ events |})
    ∧ reports events
      = (if is_URLError e then [("ERROR", "Could not download: " +:+ exc_str e)] else [])
    ∧ Forall (λ ev, changes_installation ev = false) events
    ∧ last events = Some (EvCleanup (mkdtemp (w_fs w))).
Proof.
  destruct w as [fs releases log]. cbn [w_fs w_releases w_log].
  intros Hget Hversion Hurl.
  unfold execute. run_op. rewrite Hget. rewrite decide_False by done.
  unfold with_TemporaryDirectory, download_and_replace, download. run_op.
  destruct Hurl as [Hurl|Hurl]; rewrite Hurl; run_op;
    [|unfold write_file; run_op; rewrite lookup_insert_eq;
      change (Entries.get [] "default.zip") with (@None node); run_op];
    destruct e; run_op; cbn [is_URLError];
    (eexists; split_and!;
     [do 2 f_equal;
      [rewrite ?insert_insert_eq; by apply delete_insert_eq
      |rewrite <-!app_assoc; reflexivity]
     |reflexivity|repeat constructor|reflexivity]).
Qed.

(** The download succeeds: [execute] ends as after an update, or with
    an exception from the move that makes the backup, or from the
    handler; the temporary directory is gone. *)
Lemma execute_after_download selected_release requested_release w data :
  OrderedDict.get (w_releases w) selected_release = Some requested_release →
  version_string requested_release ≠ get_current_version bl_info →
  urlopen (download_url requested_release) = inr (inr data) →
  ∃ events,
    w_log (execute' selected_release w).2 = w_log w ++ events
    ∧ w_releases (execute' selected_release w).2 = w_releases w
    ∧ w_fs (execute' selected_release w).2 !! mkdtemp (w_fs w) = None
    ∧ (((execute' selected_release w).1 = Val FINISHED
        ∧ reports events = [("ERROR", "Restart Blender!")])
       ∨ (∃ e, (execute' selected_release w).1 = Raise e ∧ reports events = [])).
Proof.
  destruct w as [fs releases log]. cbn [w_fs w_releases w_log].
  intros Hget Hversion Hurl.
  unfold execute. run_op. rewrite Hget. rewrite decide_False by done.
  unfold with_TemporaryDirectory, download_and_replace. run_op.
  rewrite (download_ok _ _ _ _ _ _ _ Hurl). run_op.
  match goal with |- context [replace_installation _ _ ?tmp ?zip ?w1] =>
    pose proof (ends_replace_installation tmp zip w1) as Hends;
    destruct (quiet_replace_installation read_zip file_realpath tmp zip w1)
      as (Hrel & events & Hlog & Hquiet%quiet_reports);
    destruct (replace_installation read_zip file_realpath tmp zip w1)
      as [[[]|e|] [fs2 releases2 log2]]
  end; cbn [fst snd w_fs w_releases w_log] in *; [| |done]; subst; run_op.
  - eexists. split_and!.
    + rewrite <-!app_assoc. reflexivity.
    + done.
    + apply lookup_delete_eq.
    + left. split; [done|]. rewrite !reports_app, Hquiet. reflexivity.
  - eexists. split_and!.
    + rewrite <-!app_assoc. reflexivity.
    + done.
    + apply lookup_delete_eq.
    + right. exists e. split; [done|]. rewrite !reports_app, Hquiet. reflexivity.
Qed.

End ExecuteFacts.

Section ExecuteOutcomes.

Context `{OsPath}.
Variable bl_info : BlInfo.
Variable urlopen : string → exc + (exc + string).
Variable read_zip : string → option (list member).
Variable file_realpath : string.
Variable mkdtemp : store → string.

#[local] Abbreviation execute' :=
  (execute bl_info urlopen read_zip file_realpath mkdtemp).

(** The two ways [execute] ends before anything is downloaded. *)
Lemma execute_unknown_selection selected_release w :
  OrderedDict.get (w_releases w) selected_release = None →
  execute' selected_release w = (Raise (KeyError selected_release), w).
Proof.
  destruct w as [fs releases log]. cbn [w_releases]. intros Hget.
  unfold execute. run_op. by rewrite Hget.
Qed.

Lemma execute_current_version selected_release requested_release w :
  OrderedDict.get (w_releases w) selected_release = Some requested_release →
  version_string requested_release = get_current_version bl_info →
  execute' selected_release w
  = (Val CANCELLED, emit (EvReport "ERROR" "This is the currently installed version") w).
Proof.
  destruct w as [fs releases log]. cbn [w_releases]. intros Hget Hversion.
  unfold execute. run_op. rewrite Hget. by rewrite decide_True.
Qed.

(** X6.  When [execute] answers [CANCELLED], nothing is changed: the
    store and the catalog are as before, no move, deletion or extraction
    has been called, and one report tells the user why.  The name of the
    temporary directory is taken to be fresh. *)
Theorem cancelled_update_changes_nothing selected_release w :
  w_fs w !! mkdtemp (w_fs w) = None →
  (execute' selected_release w).1 = Val CANCELLED →
  ∃ events msg,
    (execute' selected_release w).2
    = {| w_fs := w_fs w; w_releases := w_releases w; w_log := w_log w ++ events |}
    ∧ Forall (λ ev, changes_installation ev = false) events
    ∧ reports events = [("ERROR", msg)].
Proof.
  intros Hfresh.
  destruct (OrderedDict.get (w_releases w) selected_release) as [r|] eqn:Hget;
    [|by rewrite execute_unknown_selection].
  destruct (decide (version_string r = get_current_version bl_info)) as [Hv|Hv].
  { rewrite (execute_current_version _ _ _ Hget Hv). intros _.
    eexists [_], _. split_and!; [done|by repeat constructor|done]. }
  destruct (urlopen (download_url r)) as [e|[e|data]] eqn:Hurl.
  - destruct (execute_download_fails bl_info urlopen read_zip file_realpath mkdtemp
                _ _ w e Hget Hv (or_introl Hurl)) as (events & -> & Hreports & Hall & _).
    cbn [fst snd]. destruct (is_URLError e); [|done]. intros _.
    exists events, ("Could not download: " +:+ exc_str e).
    by rewrite delete_id.
  - destruct (execute_download_fails bl_info urlopen read_zip file_realpath mkdtemp
                _ _ w e Hget Hv (or_intror Hurl)) as (events & -> & Hreports & Hall & _).
    cbn [fst snd]. destruct (is_URLError e); [|done]. intros _.
    exists events, ("Could not download: " +:+ exc_str e).
    by rewrite delete_id.
  - destruct (execute_after_download bl_info urlopen read_zip file_realpath mkdtemp
                _ _ w data Hget Hv Hurl)
      as (events & _ & _ & _ & [[-> _]|(e & -> & _)]); done.
Qed.

(** X7.  An exception of the download that is no [URLError] is not
    caught: [execute] ends with that exception and reports nothing;
    the temporary directory has been removed, and the store and the
    catalog are as before. *)
Theorem unexpected_download_error_propagates selected_release requested_release w e :
  OrderedDict.get (w_releases w) selected_release = Some requested_release →
  version_string requested_release ≠ get_current_version bl_info →
  urlopen (download_url requested_release) = inl e
  ∨ urlopen (download_url requested_release) = inr (inl e) →
  is_URLError e = false →
  w_fs w !! mkdtemp (w_fs w) = None →
  ∃ events,
    execute' selected_release w
    = (Raise e,
       {| w_fs := w_fs w; w_releases := w_releases w; w_log := w_log w ++ events |})
    ∧ reports events = []
    ∧ Forall (λ ev, changes_installation ev = false) events
    ∧ last events = Some (EvCleanup (mkdtemp (w_fs w))).
Proof.
  intros Hget Hv Hurl He Hfresh.
  destruct (execute_download_fails bl_info urlopen read_zip file_realpath mkdtemp
              _ _ w e Hget Hv Hurl) as (events & -> & Hreports & Hall & Hlast).
  rewrite He in *. exists events. by rewrite delete_id.
Qed.

(** X8.  However [execute] ends, nothing is left at the path of the
    temporary directory, when its name is fresh. *)
Theorem temporary_directory_never_stays selected_release w :
  w_fs w !! mkdtemp (w_fs w) = None →
  w_fs (execute' selected_release w).2 !! mkdtemp (w_fs w) = None.
Proof.
  intros Hfresh.
  destruct (OrderedDict.get (w_releases w) selected_release) as [r|] eqn:Hget;
    [|by rewrite execute_unknown_selection].
  destruct (decide (version_string r = get_current_version bl_info)) as [Hv|Hv];
    [by rewrite (execute_current_version _ _ _ Hget Hv)|].
  destruct (urlopen (download_url r)) as [e|[e|data]] eqn:Hurl.
  - destruct (execute_download_fails bl_info urlopen read_zip file_realpath mkdtemp
                _ _ w e Hget Hv (or_introl Hurl)) as (events & -> & _).
    apply lookup_delete_eq.
  - destruct (execute_download_fails bl_info urlopen read_zip file_realpath mkdtemp
                _ _ w e Hget Hv (or_intror Hurl)) as (events & -> & _).
    apply lookup_delete_eq.
  - by destruct (execute_after_download bl_info urlopen read_zip file_realpath mkdtemp
                   _ _ w data Hget Hv Hurl) as (events & _ & _ & ? & _).
Qed.

(** X9.  [execute] always ends, it only adds to the log and it leaves
    the catalog alone.  When it ends with a result it has made exactly
    one report; when it ends with an exception it has made none. *)
Theorem execute_reports_once_or_raises selected_release w :
  ∃ events,
    w_log (execute' selected_release w).2 = w_log w ++ events
    ∧ w_releases (execute' selected_release w).2 = w_releases w
    ∧ match (execute' selected_release w).1 with
      | Val _ => ∃ msg, reports events = [("ERROR", msg)]
      | Raise _ => reports events = []
      | Diverge => False
      end.
Proof.
  destruct (OrderedDict.get (w_releases w) selected_release) as [r|] eqn:Hget.
  2:{ rewrite execute_unknown_selection by done. exists []. by rewrite app_nil_r. }
  destruct (decide (version_string r = get_current_version bl_info)) as [Hv|Hv].
  { rewrite (execute_current_version _ _ _ Hget Hv). eexists [_]. split_and!; [done..|].
    by eexists. }
  destruct (urlopen (download_url r)) as [e|[e|data]] eqn:Hurl.
  - destruct (execute_download_fails bl_info urlopen read_zip file_realpath mkdtemp
                _ _ w e Hget Hv (or_introl Hurl)) as (events & -> & Hreports & _).
    exists events. split_and!; [done..|]. cbn [fst].
    destruct (is_URLError e); [by eexists|done].
  - destruct (execute_download_fails bl_info urlopen read_zip file_realpath mkdtemp
                _ _ w e Hget Hv (or_intror Hurl)) as (events & -> & Hreports & _).
    exists events. split_and!; [done..|]. cbn [fst].
    destruct (is_URLError e); [by eexists|done].
  - destruct (execute_after_download bl_info urlopen read_zip file_realpath mkdtemp
                _ _ w data Hget Hv Hurl)
      as (events & Hlog & Hrel & _ & [[-> Hreports]|(e & -> & Hreports)]);
      exists events; (split_and!; [done..|]); [by eexists|done].
Qed.

End ExecuteOutcomes.

Lemma cancelled_update_changes_nothing_witness :
  ∃ events msg,
    (@execute posixpath.os_path Sample.bl_info Sample.urlopen_down Sample.read_damaged
       Sample.file_realpath Sample.mkdtemp "v2.1" Sample.w).2
    = {| w_fs := Sample.fs; w_releases := Sample.catalog; w_log := events |}
    ∧ Forall (λ ev, changes_installation ev = false) events
    ∧ reports events = [("ERROR", msg)].
Proof.
  refine (@cancelled_update_changes_nothing posixpath.os_path Sample.bl_info
    Sample.urlopen_down Sample.read_damaged Sample.file_realpath Sample.mkdtemp
    "v2.1" Sample.w _ _); vm_compute; reflexivity.
Defined.

Lemma unexpected_download_error_propagates_witness :
  ∃ events,
    @execute posixpath.os_path Sample.bl_info Sample.urlopen_reset Sample.read_good
      Sample.file_realpath Sample.mkdtemp "v2.1" Sample.w
    = (Raise (OtherException "ConnectionResetError"),
       {| w_fs := Sample.fs; w_releases := Sample.catalog; w_log := events |})
    ∧ reports events = []
    ∧ Forall (λ ev, changes_installation ev = false) events
    ∧ last events = Some (EvCleanup Sample.temp_dir_path).
Proof.
  refine (@unexpected_download_error_propagates posixpath.os_path Sample.bl_info
    Sample.urlopen_reset Sample.read_good Sample.file_realpath Sample.mkdtemp
    "v2.1" (mkRelease "v2.1" false "https://host/v2.1-hotfix/linux64-opencl.zip")
    Sample.w (OtherException "ConnectionResetError") eq_refl _ (or_intror eq_refl)
    eq_refl _).
  - discriminate.
  - vm_compute. reflexivity.
Defined.

Lemma temporary_directory_never_stays_witness :
  w_fs (@execute posixpath.os_path Sample.bl_info Sample.urlopen_up Sample.read_good
          Sample.file_realpath Sample.mkdtemp "v2.1" Sample.w).2
    !! Sample.temp_dir_path = None.
Proof.
  refine (@temporary_directory_never_stays posixpath.os_path Sample.bl_info
    Sample.urlopen_up Sample.read_good Sample.file_realpath Sample.mkdtemp
    "v2.1" Sample.w _).
  vm_compute. reflexivity.
Defined.

(** ** An update that goes through *)

Section Update.

Context `{OsPath}.

(** The extraction neither reads nor writes the catalog and the log. *)
Lemma extract_members_run dir zf fs releases log :
  extract_members dir zf {| w_fs := fs; w_releases := releases; w_log := log |}
  = ((extraction dir zf fs).1,
     {| w_fs := (extraction dir zf fs).2; w_releases := releases; w_log := log |}).
Proof.
  unfold extraction. cbn [fst snd]. revert fs.
  induction zf as [|m zf IH]; intros fs; [done|].
  simpl extract_members. unfold extract_member. run_op.
  destruct (write_at (m_rest m) (m_written m) (fs !! path_join dir (m_top m))) as [x|];
    run_op; [|done].
  destruct (m_fails m); run_op; [done|]. by rewrite IH.
Qed.

Lemma extraction_keeps_backup addon_dir blendluxcore_dir backup_path zf fs :
  Forall (keeps_clear addon_dir blendluxcore_dir backup_path) zf →
  (extraction addon_dir zf fs).2 !! backup_path = fs !! backup_path.
Proof.
  intros Hclear. unfold extraction. cbn [snd].
  destruct (extract_members addon_dir zf {| w_fs := fs; w_releases := []; w_log := [] |})
    as [r w'] eqn:Hrun.
  by apply (extract_members_keeps_clear blendluxcore_dir addon_dir backup_path) in Hrun
    as (? & _).
Qed.

Variable bl_info : BlInfo.
Variable urlopen : string → exc + (exc + string).
Variable read_zip : string → option (list member).
Variable file_realpath : string.
Variable mkdtemp : store → string.

(** X10.  An update that goes through.  The download succeeds, the
    bytes are an archive whose members are not extracted to the backup
    path, the installation root is a directory, and the extraction onto
    the store without the old installation ends well.  Then [execute]
    answers [FINISHED] and reports "Restart Blender!"; the store it
    leaves is the one the extraction made, without the backup and
    without the temporary directory: at the installation root is what
    the archive put there and nothing of the old installation, and the
    backup has been deleted, not moved back. *)
Theorem update_installs_archive
    selected_release requested_release w data zf es backup_path :
  let temp_dir_path := mkdtemp (w_fs w) in
  let blendluxcore_dir := path_dirname (path_dirname file_realpath) in
  let addon_dir := path_dirname blendluxcore_dir in
  let fs_downloaded := <[temp_dir_path := Dir [("default.zip", File data)]]> (w_fs w) in
  let extracted :=
    extraction addon_dir zf (<[backup_path := Dir es]> (delete blendluxcore_dir fs_downloaded)) in
  OrderedDict.get (w_releases w) selected_release = Some requested_release →
  version_string requested_release ≠ get_current_version bl_info →
  urlopen (download_url requested_release) = inr (inr data) →
  read_zip data = Some zf →
  w_fs w !! temp_dir_path = None →
  w_fs w !! blendluxcore_dir = Some (Dir es) →
  backup_loop fs_downloaded (S (size fs_downloaded)) (blendluxcore_dir +:+ "_backup")
    = Some backup_path →
  Forall (keeps_clear addon_dir blendluxcore_dir backup_path) zf →
  extracted.1 = Val tt →
  ∃ events,
    execute bl_info urlopen read_zip file_realpath mkdtemp selected_release w
    = (Val FINISHED,
       {| w_fs := delete temp_dir_path (delete backup_path extracted.2);
          w_releases := w_releases w;
          w_log := w_log w ++ events |})
    ∧ reports events = [("ERROR", "Restart Blender!")]
    ∧ EvRmtree backup_path ∈ events
    ∧ EvMove backup_path blendluxcore_dir ∉ events.
Proof.
  destruct w as [fs releases log]. cbn [w_fs w_releases w_log].
  set (tmp := mkdtemp fs). set (root := path_dirname (path_dirname file_realpath)).
  set (addon := path_dirname root).
  set (fs_downloaded := <[tmp := Dir [("default.zip", File data)]]> fs).
  set (fs_moved := <[backup_path := Dir es]> (delete root fs_downloaded)).
  intros Hget Hversion Hurl Hzip Hfresh Hroot Hloop Hclear Hextracted.
  assert (tmp ≠ root) as Htmp by congruence.
  destruct (backup_loop_total fs_downloaded (root +:+ "_backup")) as (n & Hn & Hfree & _).
  rewrite Hloop in Hn. injection Hn as Hn. rewrite <-Hn in Hfree. clear n Hn.
  assert (backup_path ≠ tmp) as Hbt.
  { intros Heq. unfold fs_downloaded in Hfree. by rewrite Heq, lookup_insert_eq in Hfree. }
  assert (backup_path ≠ root) as Hbr.
  { intros Heq. unfold fs_downloaded in Hfree.
    by rewrite Heq, lookup_insert_ne, Hroot in Hfree. }
  unfold execute. run_op. rewrite Hget. rewrite decide_False by done.
  unfold with_TemporaryDirectory, download_and_replace. run_op. fold tmp.
  rewrite (download_ok _ _ _ _ _ _ _ Hurl). run_op.
  unfold replace_installation, choose_backup_path. run_op.
  fold root. fold addon. fold fs_downloaded. rewrite Hloop. run_op.
  unfold swap_installation. run_op.
  rewrite (backup_move root backup_path _ (Dir es));
    [|by cbn [w_fs]; unfold fs_downloaded; rewrite lookup_insert_ne|done].
  run_op. fold fs_moved.
  unfold extract_archive, unzip, ZipFile. run_op.
  assert (fs_moved !! tmp = Some (Dir [("default.zip", File data)])) as ->.
  { unfold fs_moved, fs_downloaded.
    by rewrite lookup_insert_ne, lookup_delete_ne, lookup_insert_eq. }
  rewrite entries_get_head, Hzip. run_op.
  unfold extractall. run_op. rewrite extract_members_run.
  destruct (extraction addon zf fs_moved) as [r fs_new] eqn:Hrun.
  cbn [fst snd] in *. subst r. run_op.
  unfold shutil_rmtree. run_op.
  assert (fs_new !! backup_path = Some (Dir es)) as ->.
  { pose proof (extraction_keeps_backup addon root backup_path zf fs_moved Hclear) as Hkept.
    rewrite Hrun in Hkept. cbn [snd] in Hkept. rewrite Hkept.
    unfold fs_moved. by rewrite lookup_insert_eq. }
  run_op. eexists. split_and!.
  - do 2 f_equal. rewrite <-!app_assoc. reflexivity.
  - reflexivity.
  - rewrite !elem_of_app, !elem_of_cons. tauto.
  - rewrite !not_elem_of_app, !not_elem_of_cons.
    split_and!; first [apply not_elem_of_nil | congruence].
Qed.

End Update.

(** The update of the sample installation to v2.1: the new files are at
    the installation root, the backup a former update left is still
    there, the backup of this update is not. *)
Lemma update_installs_archive_witness :
  ∃ events,
    @execute posixpath.os_path Sample.bl_info Sample.urlopen_up Sample.read_good
      Sample.file_realpath Sample.mkdtemp "v2.1" Sample.w
    = (Val FINISHED,
       {| w_fs :=
            {[ "/addons/BlendLuxCore" :=
                 Dir [("__init__.py", File "bl_info = 2.1");
                      ("bin", Dir [("pyluxcore.so", File "ELF")])];
               "/addons/BlendLuxCore_backup" :=
                 Dir [("__init__.py", File "bl_info = 2.0 alpha7")] ]};
          w_releases := Sample.catalog;
          w_log := events |})
    ∧ reports events = [("ERROR", "Restart Blender!")]
    ∧ EvRmtree Sample.backup_path ∈ events
    ∧ EvMove Sample.backup_path Sample.blendluxcore_dir ∉ events.
Proof.
  destruct (@update_installs_archive posixpath.os_path Sample.bl_info Sample.urlopen_up
    Sample.read_good Sample.file_realpath Sample.mkdtemp
    "v2.1" (mkRelease "v2.1" false "https://host/v2.1-hotfix/linux64-opencl.zip")
    Sample.w "PK"
    [mkMember "BlendLuxCore" [] LDir None;
     mkMember "BlendLuxCore" ["__init__.py"] (LFile "bl_info = 2.1") None;
     mkMember "BlendLuxCore" ["bin"; "pyluxcore.so"] (LFile "ELF") None]
    [("__init__.py", File "bl_info = 2.0 beta2");
     ("operators", Dir [("update.py", File "class LUXCORE_OT_change_version")])]
    Sample.backup_path)
    as (events & Hrun & Hrest).
  - reflexivity.
  - discriminate.
  - reflexivity.
  - reflexivity.
  - vm_compute. reflexivity.
  - vm_compute. reflexivity.
  - vm_compute. reflexivity.
  - repeat apply Forall_cons_2; [..|apply Forall_nil_2];
      (split; [vm_compute; discriminate|]); intros _ Hrest;
      first [reflexivity | discriminate Hrest].
  - vm_compute. reflexivity.
  - exists events. split; [|exact Hrest].
    etrans; [exact Hrun|]. vm_compute. reflexivity.
Defined.

(** ** From the version check to the update *)

Section Dialog.

Context `{OsPath}.
Variable bl_info : BlInfo.
Variable requests_get : string → http_answer.
Variable platform_system : string.
Variable LUXRAYS_DISABLE_OPENCL : bool.
Variable urlopen : string → exc + (exc + string).
Variable read_zip : string → option (list member).
Variable file_realpath : string.
Variable mkdtemp : store → string.

#[local] Abbreviation invoke' := (invoke requests_get platform_system LUXRAYS_DISABLE_OPENCL).
#[local] Abbreviation execute' :=
  (execute bl_info urlopen read_zip file_realpath mkdtemp).
#[local] Abbreviation refusal :=
  (EvReport "ERROR" "This is the currently installed version").

(** Past the check of the version [execute] does not end as the check
    does. *)
Lemma execute_other_version selected_release requested_release w :
  OrderedDict.get (w_releases w) selected_release = Some requested_release →
  version_string requested_release ≠ get_current_version bl_info →
  execute' selected_release w ≠ (Val CANCELLED, emit refusal w).
Proof.
  intros Hget Hv.
  destruct (urlopen (download_url requested_release)) as [e|[e|data]] eqn:Hurl.
  - destruct (execute_download_fails bl_info urlopen read_zip file_realpath mkdtemp
                _ _ w e Hget Hv (or_introl Hurl)) as (events & -> & Hreports & _).
    destruct (is_URLError e); [|done]. unfold emit. intros [= _ Hlog].
    apply app_inv_head in Hlog. subst events. discriminate Hreports.
  - destruct (execute_download_fails bl_info urlopen read_zip file_realpath mkdtemp
                _ _ w e Hget Hv (or_intror Hurl)) as (events & -> & Hreports & _).
    destruct (is_URLError e); [|done]. unfold emit. intros [= _ Hlog].
    apply app_inv_head in Hlog. subst events. discriminate Hreports.
  - destruct (execute_after_download bl_info urlopen read_zip file_realpath mkdtemp
                _ _ w data Hget Hv Hurl)
      as (events & _ & _ & _ & [[Hr _]|(e & Hr & _)]);
      intros Heq; rewrite Heq in Hr; discriminate Hr.
Qed.

(** X11.  After a version check that was cancelled there is nothing to
    select: whatever version [execute] is called with, it ends with
    [KeyError] and leaves the world as the check left it. *)
Theorem failed_check_leaves_nothing_to_select selected_release w :
  (invoke' w).1 = Val CANCELLED →
  execute' selected_release (invoke' w).2
  = (Raise (KeyError selected_release), (invoke' w).2).
Proof.
  intros Hcancelled. apply execute_unknown_selection.
  destruct (invoke_catalog_cases requests_get platform_system LUXRAYS_DISABLE_OPENCL w)
    as [->|(response & cs & Hget & Hsys & _)]; [done|].
  by rewrite (invoke_success _ _ _ _ _ _ Hget Hsys) in Hcancelled.
Qed.

(** X12.  Every item the selector offers after the version check can
    be selected: its identifier is a key of the catalog, the record
    under that key has that version string and a download URL, so the
    lookup [execute] begins with succeeds; and the item is marked
    " (installed)" exactly when [execute] refuses the selection as the
    installed version. *)
Theorem offered_item_selects_its_release w it :
  it ∈ release_items_callback bl_info (w_releases (invoke' w).2) →
  ∃ r,
    OrderedDict.get (w_releases (invoke' w).2) (item_identifier it) = Some r
    ∧ version_string r = item_identifier it
    ∧ download_url r ≠ ""
    ∧ (item_description it = " (installed)"
       ↔ execute' (item_identifier it) (invoke' w).2
         = (Val CANCELLED, emit refusal (invoke' w).2)).
Proof.
  set (opened := (invoke' w).2). set (catalog := w_releases opened).
  intros Hit.
  assert (keyed_by_version catalog
          ∧ ∀ k e, (k, e) ∈ catalog → download_url e ≠ "") as [Hkeyed Hurl].
  { unfold catalog, opened.
    destruct (invoke_catalog_cases requests_get platform_system LUXRAYS_DISABLE_OPENCL w)
      as [->|(response & cs & _ & _ & ->)].
    - split; [constructor|]. by intros k e ?%elem_of_nil.
    - split; [apply fill_releases_keyed; constructor|].
      intros k e [?%elem_of_nil|(r & _ & _ & _ & ?)]%fill_releases_elem_of; done. }
  unfold release_items_callback in Hit. rewrite items_loop_spec in Hit.
  cbn [app] in Hit.
  apply list_elem_of_lookup in Hit as [i Hi].
  apply list_lookup_imap_Some in Hi as (e & Hi & ->).
  unfold OrderedDict.values in Hi. change (map snd catalog) with (snd <$> catalog) in Hi.
  apply list_lookup_fmap_Some in Hi as ([k e'] & -> & Hi). cbn [snd].
  apply list_elem_of_lookup_2 in Hi.
  assert (k = version_string e') as Hk.
  { unfold keyed_by_version in Hkeyed. rewrite Forall_forall in Hkeyed.
    by apply Hkeyed in Hi. }
  unfold item_identifier, item_description, selectable. cbn [fst snd].
  rewrite <-Hk.
  destruct (OrderedDict.get catalog k) as [r|] eqn:Hget.
  2:{ apply od_get_None in Hget. exfalso. apply Hget.
      unfold OrderedDict.keys. apply list_elem_of_fmap. by exists (k, e'). }
  pose proof (od_get_elem_of _ _ _ Hget) as Hr.
  assert (version_string r = k) as Hvr.
  { unfold keyed_by_version in Hkeyed. rewrite Forall_forall in Hkeyed.
    by apply Hkeyed in Hr. }
  exists r. split_and!; [done|done|by eapply Hurl|].
  rewrite annotation_text_installed. unfold annotation_of. split.
  - intros Hinst. apply execute_current_version with r; [done|].
    rewrite Hvr, Hk. by repeat case_match.
  - intros Hrun.
    destruct (decide (version_string r = get_current_version bl_info)) as [Hv|Hv].
    + rewrite decide_True; [done|]. by rewrite <-Hk, <-Hvr.
    + by apply (execute_other_version _ _ _ Hget Hv) in Hrun.
Qed.

End Dialog.

(** The check fails for want of a connection: the catalog of the sample
    world, which holds v2.1, is gone. *)
Lemma failed_check_leaves_nothing_to_select_witness :
  @execute posixpath.os_path Sample.bl_info Sample.urlopen_up Sample.read_good
    Sample.file_realpath Sample.mkdtemp "v2.1"
    (invoke (λ _, NoConnection) "Linux" false Sample.w).2
  = (Raise (KeyError "v2.1"), (invoke (λ _, NoConnection) "Linux" false Sample.w).2).
Proof.
  refine (@failed_check_leaves_nothing_to_select posixpath.os_path Sample.bl_info
    (λ _, NoConnection) "Linux" false Sample.urlopen_up Sample.read_good
    Sample.file_realpath Sample.mkdtemp "v2.1" Sample.w _).
  vm_compute. reflexivity.
Defined.

Lemma offered_item_selects_its_release_witness :
  ∃ r,
    OrderedDict.get (w_releases (invoke Sample.requests_get "Linux" false Sample.w).2)
      "v2.0beta2" = Some r
    ∧ version_string r = "v2.0beta2"
    ∧ download_url r ≠ ""
    ∧ (" (installed)" = " (installed)"
       ↔ @execute posixpath.os_path Sample.bl_info Sample.urlopen_up Sample.read_good
           Sample.file_realpath Sample.mkdtemp "v2.0beta2"
           (invoke Sample.requests_get "Linux" false Sample.w).2
         = (Val CANCELLED,
            emit (EvReport "ERROR" "This is the currently installed version")
              (invoke Sample.requests_get "Linux" false Sample.w).2)).
Proof.
  refine (@offered_item_selects_its_release posixpath.os_path Sample.bl_info
    Sample.requests_get "Linux" false Sample.urlopen_up Sample.read_good
    Sample.file_realpath Sample.mkdtemp Sample.w
    ("v2.0beta2", "v2.0beta2", " (installed)", "FILE_TICK", 1) _).
  vm_compute. do 2 constructor.
Defined.

(** ** The naming scheme of the assets, read back *)

Lemma split_no_separator s sep : count_char sep s = 0 → PyStr.split s sep = [s].
Proof.
  induction s as [|c s IH]; [done|].
  cbn [PyStr.split count_char]. destruct (decide (c = sep)) as [->|Hne]; [done|].
  intros Hs. by rewrite IH.
Qed.

Lemma split_first_segment seg rest sep :
  count_char sep seg = 0 →
  PyStr.split (seg +:+ String sep rest) sep = seg :: PyStr.split rest sep.
Proof.
  induction seg as [|c seg IH].
  - intros _. change ("" +:+ String sep rest) with (String sep rest).
    cbn [PyStr.split]. by rewrite decide_True.
  - rewrite str_app_cons. cbn [PyStr.split count_char].
    destruct (decide (c = sep)) as [->|Hne]; [done|].
    intros Hs. by rewrite IH.
Qed.

(** Splitting undoes joining, when no segment holds the separator. *)
Lemma split_join segments sep :
  segments ≠ [] →
  Forall (λ seg, count_char sep seg = 0) segments →
  PyStr.split (join_with sep segments) sep = segments.
Proof.
  intros Hne Hsegs. induction Hsegs as [|seg rest Hseg Hrest IH]; [done|].
  destruct rest as [|seg' rest].
  - by apply split_no_separator.
  - change (join_with sep (seg :: seg' :: rest))
      with (seg +:+ String sep (join_with sep (seg' :: rest))).
    rewrite split_first_segment by done. by rewrite IH.
Qed.

(** X13.  The hyphens that are left in the name of an asset, once the
    prefix and the extension are taken out, decide how the asset is
    read: there is one segment more than there are hyphens, so the name
    is read as a plain build with exactly one hyphen, as an accelerated
    build with exactly two, and passed over with any other number. *)
Theorem hyphens_decide_reading asset :
  let stripped :=
    PyStr.replace (PyStr.replace (asset_name asset) "BlendLuxCore-" "") ".zip" "" in
  let hyphens := count_char "-" stripped in
  length (asset_parts asset) = S hyphens
  ∧ match classify_parts (asset_parts asset) with
    | Some (_, _, is_opencl) => hyphens = if is_opencl then 2 else 1
    | None => hyphens ≠ 1 ∧ hyphens ≠ 2
    end.
Proof.
  intros stripped hyphens.
  assert (length (asset_parts asset) = S hyphens) as Hlen by apply split_length.
  split; [done|]. rewrite classify_parts_by_length, Hlen.
  destruct hyphens as [|[|[|n]]]; done.
Qed.

(** X14.  A name made by the scheme is read back: for
    [BlendLuxCore-<segments joined by hyphens>.zip], where no segment
    holds a hyphen and the prefix and the extension do not occur
    elsewhere in the name, the segments the matcher gets are the ones
    the name was made of.  So the asset is the build of an installation
    exactly when its second segment is the system of the installation,
    and there are three segments for an accelerated installation and
    two for a plain one. *)
Theorem scheme_name_is_read_back segments url :
  let middle := join_with "-" segments in
  let asset := mkAsset ("BlendLuxCore-" +:+ middle +:+ ".zip") url in
  segments ≠ [] →
  Forall (λ seg, count_char "-" seg = 0) segments →
  PyStr.contains "BlendLuxCore-" (middle +:+ ".zip") = false →
  PyStr.contains ".zip" middle = false →
  asset_parts asset = segments
  ∧ (∀ current_system current_is_opencl,
       asset_matches current_system current_is_opencl asset
       ↔ segments !! 1 = Some current_system
         ∧ length segments = if current_is_opencl then 3 else 2).
Proof.
  intros middle asset Hne Hsegs Hprefix Hzip.
  assert (asset_parts asset = segments) as Hparts.
  { unfold asset. rewrite asset_parts_strips_affixes by done. by apply split_join. }
  split; [done|]. intros cs co.
  unfold asset_matches, system_segment, accelerated_build. rewrite Hparts.
  destruct segments as [|a [|b [|c [|d l]]]]; destruct co; cbn; intuition congruence.
Qed.

Lemma scheme_name_is_read_back_witness :
  asset_parts (mkAsset "BlendLuxCore-v2.1-win64-opencl.zip" "https://host/win64.zip")
  = ["v2.1"; "win64"; "opencl"]
  ∧ (∀ current_system current_is_opencl,
       asset_matches current_system current_is_opencl
         (mkAsset "BlendLuxCore-v2.1-win64-opencl.zip" "https://host/win64.zip")
       ↔ ["v2.1"; "win64"; "opencl"] !! 1 = Some current_system
         ∧ length ["v2.1"; "win64"; "opencl"] = if current_is_opencl then 3 else 2).
Proof.
  refine (scheme_name_is_read_back ["v2.1"; "win64"; "opencl"] "https://host/win64.zip"
    _ _ _ _).
  - discriminate.
  - repeat apply Forall_cons_2; [reflexivity..|apply Forall_nil_2].
  - reflexivity.
  - reflexivity.
Defined.

(** X15.  The version string of a release is its title without the
    words "BlendLuxCore ": a title with the words in front and the same
    title without them give the same version string, whatever the
    assets are, and the prerelease flag is the one of the feed.  So the
    selector marks the release as installed exactly when the rest of
    the title is the current version. *)
Theorem release_title_gives_version current_system current_is_opencl
    version unstable assets :
  PyStr.contains "BlendLuxCore " version = false →
  let entry :=
    make_entry current_system current_is_opencl
      (mkReleaseInfo ("BlendLuxCore " +:+ version) unstable assets) in
  version_string entry = version
  ∧ is_prerelease entry = unstable
  ∧ version_string
      (make_entry current_system current_is_opencl (mkReleaseInfo version unstable assets))
    = version
  ∧ (∀ bl_info,
       annotation_of (get_current_version bl_info) entry = Installed
       ↔ version = get_current_version bl_info).
Proof.
  intros Hversion entry.
  assert (version_string entry = version ∧ is_prerelease entry = unstable) as [Hv Hp].
  { unfold entry, make_entry.
    destruct (scan_assets_version current_system current_is_opencl assets
      (set_is_prerelease unstable
        (set_version_string
           (PyStr.replace ("BlendLuxCore " +:+ version) "BlendLuxCore " "") Release_new)))
      as [Hv Hp].
    cbn [name prerelease] in *. split; [|exact Hp].
    etrans; [exact Hv|]. cbn [version_string set_is_prerelease set_version_string].
    rewrite replace_prefix. change ("" +:+ ?s) with s. by apply replace_absent. }
  split_and!; [done..| |].
  - unfold make_entry.
    destruct (scan_assets_version current_system current_is_opencl assets
      (set_is_prerelease unstable
        (set_version_string (PyStr.replace version "BlendLuxCore " "") Release_new)))
      as [Hv' _].
    cbn [name prerelease] in *. etrans; [exact Hv'|].
    cbn [version_string set_is_prerelease set_version_string]. by apply replace_absent.
  - intros bl_info. unfold annotation_of. rewrite Hv.
    destruct (decide (version = get_current_version bl_info)); [done|].
    by destruct (is_prerelease entry).
Qed.

Lemma release_title_gives_version_witness :
  version_string (make_entry "linux64" true Sample.v20beta2) = "v2.0beta2"
  ∧ is_prerelease (make_entry "linux64" true Sample.v20beta2) = true
  ∧ version_string
      (make_entry "linux64" true
        (mkReleaseInfo "v2.0beta2" true (assets Sample.v20beta2)))
    = "v2.0beta2"
  ∧ (∀ bl_info,
       annotation_of (get_current_version bl_info) (make_entry "linux64" true Sample.v20beta2)
       = Installed
       ↔ "v2.0beta2" = get_current_version bl_info).
Proof.
  refine (release_title_gives_version "linux64" true "v2.0beta2" true
    (assets Sample.v20beta2) _).
  reflexivity.
Defined.

(** ** What [execute] leaves alone *)

Section Spares.

Variable p : string.

Lemma spares_ret {A} (a : A) : spares p (ret a).
Proof. done. Qed.

Lemma spares_raise {A} e : spares p (@raise A e).
Proof. done. Qed.

Lemma spares_get_fs : spares p get_fs.
Proof. done. Qed.

Lemma spares_get_releases : spares p get_releases.
Proof. done. Qed.

Lemma spares_call ev : spares p (call ev).
Proof. done. Qed.

Lemma spares_modify_fs f : (∀ fs, f fs !! p = fs !! p) → spares p (modify_fs f).
Proof. intros Hf w. apply Hf. Qed.

(** The continuation need only spare the path for the values the first
    piece can give. *)
Lemma spares_bind_val {A B} (Q : A → Prop) (c : M A) (k : A → M B) :
  (∀ w a, (c w).1 = Val a → Q a) →
  spares p c → (∀ a, Q a → spares p (k a)) → spares p (bind c k).
Proof.
  intros HQ Hc Hk w. unfold bind. specialize (Hc w). specialize (HQ w).
  destruct (c w) as [[a|e|] w1]; cbn [fst snd] in *; [|done..].
  rewrite <-Hc. apply Hk. by apply HQ.
Qed.

Lemma spares_bind {A B} (c : M A) (k : A → M B) :
  spares p c → (∀ a, spares p (k a)) → spares p (bind c k).
Proof. intros Hc Hk. apply (spares_bind_val (λ _, True)); auto. Qed.

Lemma spares_attempt {A} sel (c : M A) : spares p c → spares p (attempt sel c).
Proof.
  intros Hc w. unfold attempt. specialize (Hc w).
  destruct (c w) as [[a|e|] w1]; [done| |done]. by destruct (sel e).
Qed.

Lemma spares_choose_backup_path blendluxcore_dir :
  spares p (choose_backup_path blendluxcore_dir).
Proof. intros w. unfold choose_backup_path. by destruct (backup_loop _ _ _). Qed.

(** The temporary directory is made and removed at one path. *)
Lemma spares_with_TemporaryDirectory {A} mkdtemp (body : string → M A) w :
  mkdtemp (w_fs w) ≠ p →
  (∀ w1, w_fs w1 !! p = w_fs w !! p →
         w_fs (body (mkdtemp (w_fs w)) w1).2 !! p = w_fs w1 !! p) →
  w_fs (with_TemporaryDirectory mkdtemp body w).2 !! p = w_fs w !! p.
Proof.
  intros Hne Hbody. unfold with_TemporaryDirectory.
  match goal with |- context [body ?tmp ?w1] =>
    specialize (Hbody w1); destruct (body tmp w1) as [[a|e|] w2]
  end; cbn [snd w_fs with_fs emit] in *;
    rewrite ?lookup_delete_ne by done;
    (rewrite Hbody; by rewrite lookup_insert_ne).
Qed.

End Spares.

(** Splits a piece of the operator into its binds and branches. *)
Ltac spares_step :=
  first
    [ apply spares_bind; [|intros ?]
    | apply spares_attempt
    | apply spares_ret
    | apply spares_raise
    | apply spares_get_fs
    | apply spares_get_releases
    | apply spares_choose_backup_path
    | apply spares_call
    | apply spares_modify_fs; intros ?;
        by rewrite ?lookup_insert_ne, ?lookup_delete_ne by done
    | match goal with
      | |- spares _ (match ?x with _ => _ end) => destruct x
      | |- spares _ (if ?b then _ else _) => destruct b
      end ].

Section Untouched.

Context `{OsPath}.
Variable bl_info : BlInfo.
Variable urlopen : string → exc + (exc + string).
Variable read_zip : string → option (list member).
Variable file_realpath : string.
Variable mkdtemp : store → string.

Variable p : string.

Lemma spares_shutil_move src dst : src ≠ p → dst ≠ p → spares p (shutil_move src dst).
Proof. intros Hsrc Hdst. unfold shutil_move. repeat spares_step. Qed.

Lemma spares_shutil_rmtree path : path ≠ p → spares p (shutil_rmtree path).
Proof. intros Hpath. unfold shutil_rmtree. repeat spares_step. Qed.

Lemma spares_download url dir file : dir ≠ p → spares p (download urlopen url dir file).
Proof. intros Hdir. unfold download, write_file. repeat spares_step. Qed.

Lemma spares_extract_members dir zf :
  Forall (λ m, path_join dir (m_top m) ≠ p) zf → spares p (extract_members dir zf).
Proof.
  induction 1 as [|m zf Hm _ IH]; simpl; [apply spares_ret|].
  unfold extract_member. repeat first [exact IH | spares_step].
Qed.

Lemma ZipFile_val dir file w zf :
  (ZipFile read_zip dir file w).1 = Val zf → ∃ data, read_zip data = Some zf.
Proof.
  destruct w as [fs releases log]. unfold ZipFile. run_op.
  repeat case_match; cbn [fst]; intros; simplify_eq; eauto.
Qed.

Lemma choose_backup_path_val blendluxcore_dir w backup_path :
  (choose_backup_path blendluxcore_dir w).1 = Val backup_path →
  ∃ n, backup_path = (blendluxcore_dir +:+ "_backup") +:+ bs n.
Proof.
  unfold choose_backup_path.
  destruct (backup_loop_total (w_fs w) (blendluxcore_dir +:+ "_backup")) as (n & -> & _).
  intros [= <-]. by exists n.
Qed.

#[local] Abbreviation root := (path_dirname (path_dirname file_realpath)).

(** Lines 179-194 with a backup path other than [p]. *)
Lemma spares_swap_installation temp_dir_path temp_zip backup_path :
  root ≠ p →
  backup_path ≠ p →
  (∀ data zf, read_zip data = Some zf →
     Forall (λ m, path_join (path_dirname root) (m_top m) ≠ p) zf) →
  spares p (swap_installation read_zip temp_dir_path temp_zip root (path_dirname root)
              backup_path).
Proof.
  intros not_root not_backup not_member.
  unfold swap_installation, extract_archive, restore_backup, os_path_exists, print.
  apply spares_bind; [by apply spares_shutil_move|intros _].
  apply spares_bind.
  - apply spares_attempt. apply spares_bind.
    + unfold unzip, extractall, print.
      apply (spares_bind_val p (λ zf, ∃ data, read_zip data = Some zf)).
      { apply ZipFile_val. }
      { unfold ZipFile. repeat spares_step. }
      intros zf [data Hzf].
      apply spares_bind; [apply spares_call|intros _].
      apply spares_bind; [apply spares_call|intros _].
      apply spares_extract_members. by eapply not_member.
    + intros _. apply spares_bind; [apply spares_call|intros _].
      by apply spares_shutil_rmtree.
  - intros [[]|e]; [apply spares_ret|].
    apply spares_bind; [repeat spares_step|intros partial].
    apply spares_bind; [|intros _; by apply spares_shutil_move].
    destruct partial; [by apply spares_shutil_rmtree|apply spares_ret].
Qed.

(** Lines 157-161: the [try] around the download. *)
Lemma spares_try_download url temp_dir_path :
  temp_dir_path ≠ p →
  spares p (attempt is_URLError (
    print ("Downloading: " +:+ url) ;;
    download urlopen url temp_dir_path "default.zip")).
Proof.
  intros Htmp. apply spares_attempt.
  apply spares_bind; [apply spares_call|intros _]. by apply spares_download.
Qed.

(** X16.  [execute] leaves the other entries of the add-on directory
    alone.  The installation root is an entry of the add-on directory
    under a plain name, as [os.path.realpath] gives it, and the members
    of an archive have plain names as their first components, as
    [zipfile] makes them.  Take another entry of the add-on directory,
    that is the path the add-on directory and a plain name are joined
    to, other than the installation root.  It is not the place of a
    member of an archive, it either holds something or is none of the
    names [<root>_backup], [<root>_backupb], ... the backup can get, and
    the temporary directory is neither at it, nor below it, nor above
    it.  Whatever is selected and however [execute] ends, what is at
    that path afterwards is what was there before: the other add-ons and
    the backups of former updates are not touched, and nothing new
    appears beside the root.  (Nothing is said of the paths inside the
    root or above it: those the update does change.) *)
Theorem execute_spares_other_paths selected_release w name :
  plain_name (path_basename root) →
  root = path_join (path_dirname root) (path_basename root) →
  plain_name name →
  p = path_join (path_dirname root) name →
  root ≠ p →
  ¬ reaches p (mkdtemp (w_fs w)) →
  ¬ reaches (mkdtemp (w_fs w)) p →
  is_Some (w_fs w !! p) ∨ (∀ n, (root +:+ "_backup") +:+ bs n ≠ p) →
  (∀ data zf, read_zip data = Some zf →
     Forall (λ m, plain_name (m_top m)
                  ∧ path_join (path_dirname root) (m_top m) ≠ p) zf) →
  w_fs (execute bl_info urlopen read_zip file_realpath mkdtemp selected_release w).2 !! p
  = w_fs w !! p.
Proof.
  intros _ _ _ _ not_root Hbelow _ Hp Hmembers.
  assert (∀ data zf, read_zip data = Some zf →
            Forall (λ m, path_join (path_dirname root) (m_top m) ≠ p) zf) as not_member.
  { intros data zf Hzf. eapply Forall_impl; [by eapply Hmembers|]. by intros m [_ ?]. }
  assert (mkdtemp (w_fs w) ≠ p) as Htmp.
  { intros Heq. apply Hbelow. unfold reaches. rewrite Heq.
    destruct (String.length p); apply elem_of_cons; by left. }
  assert (∀ temp_dir_path temp_zip w1,
            w_fs w1 !! p = w_fs w !! p →
            w_fs (replace_installation read_zip file_realpath temp_dir_path temp_zip w1).2
              !! p = w_fs w1 !! p) as Hreplace.
  { intros temp_dir_path temp_zip w1 Hw1. unfold replace_installation, choose_backup_path.
    destruct (backup_loop_total (w_fs w1) (root +:+ "_backup")) as (n & Hloop & Hfree & _).
    unfold bind at 1. rewrite Hloop.
    assert ((root +:+ "_backup") +:+ bs n ≠ p) as not_backup.
    { destruct Hp as [[x Hx]|Hp]; [|done]. intros Heq. congruence. }
    remember ((root +:+ "_backup") +:+ bs n) as backup_path eqn:Hbackup.
    apply (spares_bind p (print ("Backing up files at: " +:+ backup_path))
             (λ _, swap_installation read_zip temp_dir_path temp_zip root (path_dirname root)
                     backup_path)).
    - apply spares_call.
    - intros _. by apply spares_swap_installation. }
  destruct w as [fs releases log]. cbn [w_fs] in *. unfold execute. run_op.
  destruct (OrderedDict.get releases selected_release) as [r|]; [|done].
  destruct (decide _); run_op; [done|].
  match goal with |- context [with_TemporaryDirectory ?mk ?body ?W] =>
    pose proof (spares_with_TemporaryDirectory p mk body W Htmp) as Hsp;
    destruct (with_TemporaryDirectory mk body W) as [[[o|]|e|] w2]
  end; run_op; cbn [w_fs snd] in *; apply Hsp; clear Hsp;
    (intros w1 Hw1; unfold download_and_replace; cbv zeta;
     pose proof (spares_try_download (download_url r) _ Htmp w1) as Hd;
     unfold bind at 1;
     match type of Hd with context [attempt ?h ?c w1] =>
       destruct (attempt h c w1) as [[[[]|e']|e'|] w3]
     end; cbn [snd] in *; [|by rewrite <-Hd..];
     unfold print; run_op; unfold bind, call, ret; cbn [emit];
     match goal with |- context [replace_installation _ _ ?t ?z ?W3] =>
       pose proof (Hreplace t z W3) as Hr;
       destruct (replace_installation read_zip file_realpath t z W3) as [[[]|e'|] w4]
     end; cbn [w_fs snd] in *; rewrite Hr by congruence; done).
Qed.

End Untouched.

(** The update of the sample installation to v2.1 leaves the backup of
    a former update where it is. *)
Lemma execute_spares_other_paths_witness :
  w_fs (@execute posixpath.os_path Sample.bl_info Sample.urlopen_up Sample.read_good
          Sample.file_realpath Sample.mkdtemp "v2.1" Sample.w).2
    !! "/addons/BlendLuxCore_backup"
  = Sample.fs !! "/addons/BlendLuxCore_backup".
Proof.
  refine (@execute_spares_other_paths posixpath.os_path Sample.bl_info Sample.urlopen_up
    Sample.read_good Sample.file_realpath Sample.mkdtemp "/addons/BlendLuxCore_backup"
    "v2.1" Sample.w "BlendLuxCore_backup" _ _ _ _ _ _ _ _ _).
  - vm_compute. split_and!; [discriminate..|reflexivity|reflexivity].
  - vm_compute. reflexivity.
  - split_and!; [discriminate..|reflexivity|reflexivity].
  - vm_compute. reflexivity.
  - vm_compute. discriminate.
  - unfold reaches. intros Hin. pose proof (bool_decide_eq_true_2 _ Hin) as Hdec.
    vm_compute in Hdec. discriminate Hdec.
  - unfold reaches. intros Hin. pose proof (bool_decide_eq_true_2 _ Hin) as Hdec.
    vm_compute in Hdec. discriminate Hdec.
  - left. vm_compute. eexists. reflexivity.
  - intros data zf [= <-].
    repeat apply Forall_cons_2; [..|apply Forall_nil_2];
      (split; [split_and!; [discriminate..|reflexivity|reflexivity]
              |vm_compute; discriminate]).
Defined.

(** ** A rollback that fails *)

Section FailedRollback.

Context `{OsPath}.
Variable read_zip : string → option (list member).
Variables temp_dir_path temp_zip blendluxcore_dir addon_dir backup_path : string.

(** X17.  The rollback has no handler of its own.  When the failed
    extraction has left a regular file at the path of the installation
    root, [rmtree] raises [NotADirectoryError] there and the exception
    leaves lines 179-194: the backup is not moved back, the path of
    the installation root still holds the file, and the old
    installation stays where the extraction left it, at the backup
    path. *)
Theorem rollback_fails_on_file_at_root w x e w_failed data :
  w_fs w !! blendluxcore_dir = Some x →
  w_fs w !! backup_path = None →
  unzip read_zip temp_dir_path temp_zip addon_dir
    (shutil_move blendluxcore_dir backup_path w).2 = (Raise e, w_failed) →
  w_fs w_failed !! blendluxcore_dir = Some (File data) →
  swap_installation read_zip temp_dir_path temp_zip blendluxcore_dir addon_dir
    backup_path w
  = (Raise (NotADirectoryError blendluxcore_dir),
     {| w_fs := w_fs w_failed;
        w_releases := w_releases w_failed;
        w_log := w_log w_failed ++ [EvRmtree blendluxcore_dir] |}).
Proof.
  intros Hroot Hbackup Hunzip Hfile.
  unfold swap_installation. run_op.
  rewrite (backup_move blendluxcore_dir backup_path w x Hroot Hbackup) in *.
  cbn [snd] in *. unfold extract_archive. run_op. rewrite Hunzip. run_op.
  destruct w_failed as [fs_failed releases_failed log_failed]. cbn [w_fs] in *.
  unfold restore_backup, os_path_exists. run_op.
  rewrite bool_decide_eq_true_2 by (by rewrite Hfile).
  unfold shutil_rmtree. run_op. by rewrite Hfile.
Qed.

End FailedRollback.

Lemma rollback_fails_on_file_at_root_witness :
  ∃ w',
    @swap_installation posixpath.os_path Sample.read_misplaced
      Sample.temp_dir_path "default.zip" Sample.blendluxcore_dir Sample.addon_dir
      Sample.backup_path Sample.w_downloaded
    = (Raise (NotADirectoryError Sample.blendluxcore_dir), w')
    ∧ w_fs w' !! Sample.blendluxcore_dir = Some (File "text")
    ∧ w_fs w' !! Sample.backup_path = Some Sample.installation.
Proof.
  eexists. split_and!.
  - refine (@rollback_fails_on_file_at_root posixpath.os_path Sample.read_misplaced
      Sample.temp_dir_path "default.zip" Sample.blendluxcore_dir Sample.addon_dir
      Sample.backup_path Sample.w_downloaded Sample.installation BadZipFile
      (@unzip posixpath.os_path Sample.read_misplaced Sample.temp_dir_path "default.zip"
         Sample.addon_dir
         (@shutil_move posixpath.os_path Sample.blendluxcore_dir Sample.backup_path
            Sample.w_downloaded).2).2
      "text" _ _ _ _).
    + reflexivity.
    + reflexivity.
    + vm_compute. reflexivity.
    + vm_compute. reflexivity.
  - vm_compute. reflexivity.
  - vm_compute. reflexivity.
Defined.
